(** * Polymathic: note editing and synchronisation

    A shallow embedding of the two pieces of the front end in which ordering
    and consistency matter:

    - [UseNotes]: the optimistic update of the React Query cache performed by
      [updateNoteMutation] in [hooks/useNotes.ts];
    - [NoteEditor]: the auto-save state machine of the [NoteEditor] component
      (debounce timer, manual save, note-switch effect, loading guard).

    JavaScript numbers that hold identifiers are modelled as [Z], times and
    timer handles as [N], strings as [string], arrays as [list], the query
    cache as a finite map from the subject id of the query key
    [["notes", subjectId]] to the cached [NoteList]. *)

From Stdlib Require Import Ascii String.
From stdpp Require Import base numbers option list strings gmap.

Local Open Scope Z_scope.

(** ** types/note.types.ts *)

Record Note := mkNote {
  id : Z;
  subject_id : Z;
  title : string;
  content_json : string;
}.

(** [NoteUpdate]: both fields are optional; [None] is an absent key. *)
Record NoteUpdate := mkNoteUpdate {
  upd_title : option string;
  upd_content_json : option string;
}.

Record NoteList := mkNoteList {
  notes : list Note;
  total : Z;
  list_subject_id : option Z;
}.

#[global] Instance Note_eq_dec : EqDecision Note.
Proof. solve_decision. Defined.

#[global] Instance NoteUpdate_eq_dec : EqDecision NoteUpdate.
Proof. solve_decision. Defined.

#[global] Instance NoteList_eq_dec : EqDecision NoteList.
Proof. solve_decision. Defined.

(** ** hooks/useNotes.ts *)

Module UseNotes.

(** [{ ...note, ...data }]: the keys present in [data] override [note]. *)
Definition spread (note : Note) (data : NoteUpdate) : Note :=
  {| id := id note;
     subject_id := subject_id note;
     title := default (title note) (upd_title data);
     content_json := default (content_json note) (upd_content_json data) |}.

(** The updater handed to [setQueryData] in [onMutate], on a defined
    [old]: [{ ...old, notes: old.notes.map(...) }]. *)
Definition rewriteNotes (noteId : Z) (data : NoteUpdate) (old : NoteList)
  : NoteList :=
  {| notes := (fun note => if decide (id note = noteId)
                           then spread note data else note) <$> notes old;
     total := total old;
     list_subject_id := list_subject_id old |}.

(** The whole updater: [if (!old) return old]. *)
Definition updater (noteId : Z) (data : NoteUpdate)
    (old : option NoteList) : option NoteList :=
  rewriteNotes noteId data <$> old.

(** [queryClient.getQueryData(queryKey)]. *)
Definition getQueryData (subjectId : Z) (qc : gmap Z NoteList)
  : option NoteList := qc !! subjectId.

(** [queryClient.setQueryData(queryKey, value)] with a defined value. *)
Definition setQueryData (subjectId : Z) (v : NoteList)
    (qc : gmap Z NoteList) : gmap Z NoteList := <[subjectId := v]> qc.

(** [queryClient.setQueryData(queryKey, updaterFn)]: an updater that
    returns [undefined] leaves the cache alone. *)
Definition setQueryDataWith (subjectId : Z)
    (f : option NoteList -> option NoteList)
    (qc : gmap Z NoteList) : gmap Z NoteList :=
  match f (getQueryData subjectId qc) with
  | Some v => setQueryData subjectId v qc
  | None => qc
  end.

(** The context returned by [onMutate]. *)
Record Context := mkContext { previousNotes : option NoteList }.

(** [onMutate]: snapshot, then optimistic rewrite. *)
Definition onMutate (subjectId noteId : Z) (data : NoteUpdate)
    (qc : gmap Z NoteList) : Context * gmap Z NoteList :=
  let previous := getQueryData subjectId qc in
  (mkContext previous,
   setQueryDataWith subjectId (updater noteId data) qc).

(** [onError]: [if (context?.previousNotes) setQueryData(...)]. *)
Definition onError (subjectId : Z) (context : option Context)
    (qc : gmap Z NoteList) : gmap Z NoteList :=
  match context with
  | Some ctx =>
      match previousNotes ctx with
      | Some prev => setQueryData subjectId prev qc
      | None => qc
      end
  | None => qc
  end.

(** The cached entry for one note, as the list view looks it up. *)
Definition cachedNote (subjectId noteId : Z) (qc : gmap Z NoteList)
  : option Note :=
  getQueryData subjectId qc ≫= fun l =>
    list_find (fun note => id note = noteId) (notes l) ≫= fun p =>
      Some p.2.

(** Two partial updates as one: the keys of [later] override those of
    [earlier], as in [{ ...earlier, ...later }]. *)
Definition overlay (earlier later : NoteUpdate) : NoteUpdate :=
  {| upd_title := upd_title later ∪ upd_title earlier;
     upd_content_json := upd_content_json later ∪ upd_content_json earlier |}.

(** The ids of the notes cached for a subject, in list order. *)
Definition cachedIds (subjectId : Z) (qc : gmap Z NoteList) : list Z :=
  match getQueryData subjectId qc with
  | Some l => id <$> notes l
  | None => []
  end.

End UseNotes.

(** ** components/notes/NoteEditor.tsx *)

(** The rich-text engine (TipTap) and the JSON built-ins are collaborators of
    the component; the model takes them as an interface. *)
Class DocEngine := {
  (** the value [JSON.parse] produces and [editor.getJSON()] returns *)
  JSONContent : Type;
  (** the document held by the editor *)
  Doc : Type;
  (** [JSON.parse]; [None] stands for the [SyntaxError] it throws *)
  JSON_parse : string -> option JSONContent;
  JSON_stringify : JSONContent -> string;
  getJSON : Doc -> JSONContent;
  (** the document that results from handing parsed content to the editor *)
  docOfJSON : JSONContent -> Doc;
  (** the document that results from the content [""] *)
  emptyDoc : Doc;
}.

Module NoteEditor.
Section WithEngine.

Context `{DocEngine}.

Local Open Scope N_scope.

(** What a pending [setTimeout] will run: the closure created in
    [autoSave], which captured [note.id] and [content], or the closure of
    the note-switch effect that lowers the loading flag. *)
Inductive TimerCallback :=
| SaveCallback (noteId : Z) (content : string)
| LoadingDone.

Record Timer := mkTimer {
  handle : N;
  due : N;
  callback : TimerCallback;
}.

(** One invocation of the [onUpdate] prop. *)
Record Call := mkCall {
  call_id : Z;
  call_data : NoteUpdate;
}.

(** Which [try] block awaits a call that has not settled yet. *)
Inductive Origin := FromAutoSave | FromManualSave.

(** The three [console.error] sites. *)
Inductive LogEntry := AutoSaveFailed | SaveFailed | ParseFailed.

(** The component instance together with the part of the runtime it
    talks to: the clock, the timer queue, the calls made through
    [onUpdate] and the promises still pending. *)
Record State := mkState {
  note : Note;                     (* props.note *)
  editor : option Doc;             (* useEditor: null until initialised *)
  isSaving : bool;
  lastSaved : option N;
  hasUnsavedChanges : bool;
  saveTimeoutRef : option N;
  isLoadingNoteRef : bool;
  now : N;
  nextHandle : N;
  timers : list Timer;             (* ordered by due time *)
  calls : list Call;               (* oldest first *)
  inflight : list Origin;
  console : list LogEntry;
}.

(** Field updates. *)

Definition set_note (v : Note) (s : State) : State :=
  {| note := v; editor := editor s; isSaving := isSaving s;
     lastSaved := lastSaved s; hasUnsavedChanges := hasUnsavedChanges s;
     saveTimeoutRef := saveTimeoutRef s;
     isLoadingNoteRef := isLoadingNoteRef s; now := now s;
     nextHandle := nextHandle s; timers := timers s; calls := calls s;
     inflight := inflight s; console := console s |}.

Definition set_editor (v : option Doc) (s : State) : State :=
  {| note := note s; editor := v; isSaving := isSaving s;
     lastSaved := lastSaved s; hasUnsavedChanges := hasUnsavedChanges s;
     saveTimeoutRef := saveTimeoutRef s;
     isLoadingNoteRef := isLoadingNoteRef s; now := now s;
     nextHandle := nextHandle s; timers := timers s; calls := calls s;
     inflight := inflight s; console := console s |}.

Definition set_isSaving (v : bool) (s : State) : State :=
  {| note := note s; editor := editor s; isSaving := v;
     lastSaved := lastSaved s; hasUnsavedChanges := hasUnsavedChanges s;
     saveTimeoutRef := saveTimeoutRef s;
     isLoadingNoteRef := isLoadingNoteRef s; now := now s;
     nextHandle := nextHandle s; timers := timers s; calls := calls s;
     inflight := inflight s; console := console s |}.

Definition set_lastSaved (v : option N) (s : State) : State :=
  {| note := note s; editor := editor s; isSaving := isSaving s;
     lastSaved := v; hasUnsavedChanges := hasUnsavedChanges s;
     saveTimeoutRef := saveTimeoutRef s;
     isLoadingNoteRef := isLoadingNoteRef s; now := now s;
     nextHandle := nextHandle s; timers := timers s; calls := calls s;
     inflight := inflight s; console := console s |}.

Definition set_hasUnsavedChanges (v : bool) (s : State) : State :=
  {| note := note s; editor := editor s; isSaving := isSaving s;
     lastSaved := lastSaved s; hasUnsavedChanges := v;
     saveTimeoutRef := saveTimeoutRef s;
     isLoadingNoteRef := isLoadingNoteRef s; now := now s;
     nextHandle := nextHandle s; timers := timers s; calls := calls s;
     inflight := inflight s; console := console s |}.

Definition set_saveTimeoutRef (v : option N) (s : State) : State :=
  {| note := note s; editor := editor s; isSaving := isSaving s;
     lastSaved := lastSaved s; hasUnsavedChanges := hasUnsavedChanges s;
     saveTimeoutRef := v; isLoadingNoteRef := isLoadingNoteRef s;
     now := now s; nextHandle := nextHandle s; timers := timers s;
     calls := calls s; inflight := inflight s; console := console s |}.

Definition set_isLoadingNoteRef (v : bool) (s : State) : State :=
  {| note := note s; editor := editor s; isSaving := isSaving s;
     lastSaved := lastSaved s; hasUnsavedChanges := hasUnsavedChanges s;
     saveTimeoutRef := saveTimeoutRef s; isLoadingNoteRef := v;
     now := now s; nextHandle := nextHandle s; timers := timers s;
     calls := calls s; inflight := inflight s; console := console s |}.

Definition set_now (v : N) (s : State) : State :=
  {| note := note s; editor := editor s; isSaving := isSaving s;
     lastSaved := lastSaved s; hasUnsavedChanges := hasUnsavedChanges s;
     saveTimeoutRef := saveTimeoutRef s;
     isLoadingNoteRef := isLoadingNoteRef s; now := v;
     nextHandle := nextHandle s; timers := timers s; calls := calls s;
     inflight := inflight s; console := console s |}.

Definition set_nextHandle (v : N) (s : State) : State :=
  {| note := note s; editor := editor s; isSaving := isSaving s;
     lastSaved := lastSaved s; hasUnsavedChanges := hasUnsavedChanges s;
     saveTimeoutRef := saveTimeoutRef s;
     isLoadingNoteRef := isLoadingNoteRef s; now := now s;
     nextHandle := v; timers := timers s; calls := calls s;
     inflight := inflight s; console := console s |}.

Definition set_timers (v : list Timer) (s : State) : State :=
  {| note := note s; editor := editor s; isSaving := isSaving s;
     lastSaved := lastSaved s; hasUnsavedChanges := hasUnsavedChanges s;
     saveTimeoutRef := saveTimeoutRef s;
     isLoadingNoteRef := isLoadingNoteRef s; now := now s;
     nextHandle := nextHandle s; timers := v; calls := calls s;
     inflight := inflight s; console := console s |}.

Definition set_calls (v : list Call) (s : State) : State :=
  {| note := note s; editor := editor s; isSaving := isSaving s;
     lastSaved := lastSaved s; hasUnsavedChanges := hasUnsavedChanges s;
     saveTimeoutRef := saveTimeoutRef s;
     isLoadingNoteRef := isLoadingNoteRef s; now := now s;
     nextHandle := nextHandle s; timers := timers s; calls := v;
     inflight := inflight s; console := console s |}.

Definition set_inflight (v : list Origin) (s : State) : State :=
  {| note := note s; editor := editor s; isSaving := isSaving s;
     lastSaved := lastSaved s; hasUnsavedChanges := hasUnsavedChanges s;
     saveTimeoutRef := saveTimeoutRef s;
     isLoadingNoteRef := isLoadingNoteRef s; now := now s;
     nextHandle := nextHandle s; timers := timers s; calls := calls s;
     inflight := v; console := console s |}.

Definition set_console (v : list LogEntry) (s : State) : State :=
  {| note := note s; editor := editor s; isSaving := isSaving s;
     lastSaved := lastSaved s; hasUnsavedChanges := hasUnsavedChanges s;
     saveTimeoutRef := saveTimeoutRef s;
     isLoadingNoteRef := isLoadingNoteRef s; now := now s;
     nextHandle := nextHandle s; timers := timers s; calls := calls s;
     inflight := inflight s; console := v |}.

(** [{ content_json: content }] *)
Definition contentUpdate (content : string) : NoteUpdate :=
  {| upd_title := None; upd_content_json := Some content |}.

(** [JSON.stringify(editor.getJSON())] *)
Definition serialize (d : Doc) : string := JSON_stringify (getJSON d).

(** *** Timers *)

(** The queue is kept in firing order: by due time, and by creation
    order among timers due at the same time. *)
Fixpoint insertTimer (t : Timer) (q : list Timer) : list Timer :=
  match q with
  | [] => [t]
  | u :: q' =>
      if decide (due u <= due t) then u :: insertTimer t q'
      else t :: u :: q'
  end.

Definition setTimeout (cb : TimerCallback) (delay : N) (s : State)
  : N * State :=
  let h := nextHandle s in
  (h, set_nextHandle (h + 1)
        (set_timers (insertTimer (mkTimer h (now s + delay) cb)
                       (timers s)) s)).

Definition clearTimeout (h : N) (s : State) : State :=
  set_timers (filter (fun t => handle t <> h) (timers s)) s.

(** [if (saveTimeoutRef.current) clearTimeout(saveTimeoutRef.current)] *)
Definition clearSaveTimeout (s : State) : State :=
  match saveTimeoutRef s with
  | Some h => clearTimeout h s
  | None => s
  end.

(** The synchronous part of a timer callback. For [SaveCallback] this is
    the body up to [await onUpdate(...)]: the rest runs in [settle]. *)
Definition runCallback (cb : TimerCallback) (s : State) : State :=
  match cb with
  | SaveCallback noteId content =>
      set_inflight (inflight s ++ [FromAutoSave])
        (set_calls (calls s ++ [mkCall noteId (contentUpdate content)])
           (set_isSaving true s))
  | LoadingDone => set_isLoadingNoteRef false s
  end.

Definition fire (s : State) (t : Timer) : State :=
  runCallback (callback t) (set_now (N.max (now s) (due t)) s).

(** [ms] milliseconds pass. The timers that fall due run in queue
    order; no callback of this component sets or clears a timer, so the
    due ones are taken off the queue at once. *)
Definition elapse (ms : N) (s : State) : State :=
  let target := now s + ms in
  let ready := filter (fun t => due t <= target) (timers s) in
  let later := filter (fun t => ~ due t <= target) (timers s) in
  set_now target (foldl fire (set_timers later s) ready).

(** *** autoSave (lines 44-69) *)

Definition autoSave (content : string) (s : State) : State :=
  let s1 := set_hasUnsavedChanges true s in
  let s2 := clearSaveTimeout s1 in
  let '(h, s3) :=
    setTimeout (SaveCallback (id (note s)) content) 2000 s2 in
  set_saveTimeoutRef (Some h) s3.

(** *** The editor's onUpdate handler (lines 101-113)

    The handler and [autoSave] are those of the current render: they see
    the current [note.id]; the ref is shared by all renders. *)

Definition onUpdate (s : State) : State :=
  if isLoadingNoteRef s then s
  else match editor s with
       | Some d => autoSave (serialize d) s
       | None => s
       end.

(** A transaction that replaces the document by [d] and emits [update]:
    the user typing, or [editor.commands.setContent], whose notification
    is the one the loading flag is there to silence. *)
Definition transact (d : Doc) (s : State) : State :=
  match editor s with
  | Some _ => onUpdate (set_editor (Some d) s)
  | None => s
  end.

(** *** The note-switch effect (lines 128-158)

    The [None] branch of [loadContent] is the [catch] of lines 146-149. *)

Definition loadContent (s : State) : State :=
  match editor s with
  | Some d =>
      let newContent := content_json (note s) in
      if decide (newContent = EmptyString) then s       (* falsy *)
      else if decide (serialize d = newContent) then s
      else match JSON_parse newContent with
           | Some parsed => transact (docOfJSON parsed) s
           | None =>
               transact emptyDoc
                 (set_console (console s ++ [ParseFailed]) s)
           end
  | None => s
  end.

Definition noteEffect (s : State) : State :=
  let s1 := set_isLoadingNoteRef true s in
  let s2 := set_lastSaved None (set_hasUnsavedChanges false s1) in
  let s3 := loadContent s2 in
  (setTimeout LoadingDone 100 s3).2.

(** What follows a render with new props that did not throw: the props
    are the new ones, and the effect, whose dependencies are
    [[note.id, note.content_json, editor]], runs when one changed. *)
Definition commit (n : Note) (s : State) : State :=
  let s' := set_note n s in
  if decide (id n = id (note s) /\ content_json n = content_json (note s))
  then s' else noteEffect s'.

(** *** Rendering (useState/useRef initial values, useEditor, effects) *)

(** A render either completes or throws. *)
Inductive Outcome := Rendered (s : State) | Threw.

(** The options object handed to [useEditor] is built by every render,
    outside any [try] (lines 98-99):
    [content: note.content_json ? JSON.parse(note.content_json) : ""].
    [None] stands for the [SyntaxError] thrown by [JSON.parse]. The
    document is used by the first render only: later renders keep the
    editor they have. *)
Definition initialDoc (n : Note) : option Doc :=
  if decide (content_json n = EmptyString) then Some emptyDoc
  else docOfJSON <$> JSON_parse (content_json n).

(** A render with new props: it throws when the content of the new note
    does not parse, before any effect runs. *)
Definition rerender (n : Note) (s : State) : Outcome :=
  match initialDoc n with
  | Some _ => Rendered (commit n s)
  | None => Threw
  end.

Definition mount (n : Note) : Outcome :=
  match initialDoc n with
  | Some d =>
      Rendered (noteEffect
        {| note := n; editor := Some d; isSaving := false;
           lastSaved := None; hasUnsavedChanges := false;
           saveTimeoutRef := None; isLoadingNoteRef := false;
           now := 0; nextHandle := 1; timers := []; calls := [];
           inflight := []; console := [] |})
  | None => Threw
  end.

(** *** Unmount cleanup (lines 163-169) *)

Definition unmount (s : State) : State := clearSaveTimeout s.

(** *** manualSave (lines 174-189) *)

Definition manualSave (s : State) : State :=
  match editor s with
  | Some d =>
      if hasUnsavedChanges s then
        set_inflight (inflight s ++ [FromManualSave])
          (set_calls
             (calls s ++ [mkCall (id (note s)) (contentUpdate (serialize d))])
             (set_isSaving true s))
      else s
  | None => s
  end.

(** *** Completion of a pending [onUpdate] promise

    The code after [await]: on success [setLastSaved(new Date())] and
    [setHasUnsavedChanges(false)], on failure [console.error]; in both
    cases [setIsSaving(false)]. [k] selects the pending call. *)
Definition failureEntry (o : Origin) : LogEntry :=
  match o with
  | FromAutoSave => AutoSaveFailed
  | FromManualSave => SaveFailed
  end.

Definition settle (k : nat) (ok : bool) (s : State) : State :=
  match inflight s !! k with
  | Some o =>
      let s1 := set_inflight (delete k (inflight s)) s in
      let s2 :=
        if ok then set_hasUnsavedChanges false (set_lastSaved (Some (now s)) s1)
        else set_console (console s ++ [failureEntry o]) s1 in
      set_isSaving false s2
  | None => s
  end.

(** *** Events and runs *)

Inductive Event :=
| UserEdit (d : Doc)
| Rerender (n : Note)
| ManualSave
| Elapse (ms : N)
| Settle (k : nat) (ok : bool)
| Unmount.

Definition step (s : State) (e : Event) : Outcome :=
  match e with
  | UserEdit d => Rendered (transact d s)
  | Rerender n => rerender n s
  | ManualSave => Rendered (manualSave s)
  | Elapse ms => Rendered (elapse ms s)
  | Settle k ok => Rendered (settle k ok s)
  | Unmount => Rendered (unmount s)
  end.

(** A run ends with the render that throws. *)
Fixpoint run (s : State) (evs : list Event) : Outcome :=
  match evs with
  | [] => Rendered s
  | e :: evs' =>
      match step s e with
      | Rendered s' => run s' evs'
      | Threw => Threw
      end
  end.

(** What can be observed of an outcome: nothing once a render threw. *)
Definition observe {A} (f : State -> A) (o : Outcome) : option A :=
  match o with
  | Rendered s => Some (f s)
  | Threw => None
  end.

(** *** Observations used in the statements *)

Definition isSave (t : Timer) : Prop :=
  match callback t with SaveCallback _ _ => True | LoadingDone => False end.

#[global] Instance isSave_dec t : Decision (isSave t).
Proof. unfold isSave; destruct (callback t); apply _. Defined.

(** The pending debounce timers. *)
Definition saveTimers (s : State) : list Timer := filter isSave (timers s).

(** The call a pending timer will make when it fires. *)
Definition callOf (t : Timer) : option Call :=
  match callback t with
  | SaveCallback noteId content => Some (mkCall noteId (contentUpdate content))
  | LoadingDone => None
  end.

(** What firing a list of timers cannot touch. *)
Definition sameScheduling s s' : Prop :=
  note s' = note s /\ editor s' = editor s /\
  lastSaved s' = lastSaved s /\
  hasUnsavedChanges s' = hasUnsavedChanges s /\
  saveTimeoutRef s' = saveTimeoutRef s /\
  nextHandle s' = nextHandle s /\ timers s' = timers s /\
  console s' = console s.

(** Every pending debounce timer is the one [saveTimeoutRef] points to,
    there is at most one, and the dirty flag is down while the loading
    flag is up. *)
Record Inv s : Prop := {
  inv_ref :
    Forall (fun t => saveTimeoutRef s = Some (handle t)) (saveTimers s);
  inv_one : (length (saveTimers s) <= 1)%nat;
  inv_guard : isLoadingNoteRef s = true -> hasUnsavedChanges s = false;
}.

(** The timer [autoSave] sets: it carries the id of the note that is
    active now and the content handed to [autoSave]. *)
Definition debounceTimer (content : string) s : Timer :=
  mkTimer (nextHandle s) (now s + 2000)
    (SaveCallback (id (note s)) content).

(** A burst of edits, each followed by a pause. *)
Fixpoint burstEvents (eds : list (Doc * N)) : list Event :=
  match eds with
  | [] => []
  | (d, gap) :: eds' => UserEdit d :: Elapse gap :: burstEvents eds'
  end.

(** The call that would save the document [d] under the note that is
    active in [s]. *)
Definition saveOf (d : Doc) (s : State) : Call :=
  mkCall (id (note s)) (contentUpdate (serialize d)).

(** What an event hands to the save path: a user edit hands over the
    edited document, a manual save the current one, both under the id of
    the note that is active when the event happens. *)
Definition capturedBy (s : State) (e : Event) : list Call :=
  match e, editor s with
  | UserEdit d, Some _ => [saveOf d s]
  | ManualSave, Some d => [saveOf d s]
  | _, _ => []
  end.

Fixpoint captured (s : State) (evs : list Event) : list Call :=
  match evs with
  | [] => []
  | e :: evs' =>
      capturedBy s e
      ++ match step s e with
         | Rendered s' => captured s' evs'
         | Threw => []
         end
  end.


(** Events in which neither the user nor the parent takes part. *)
Definition idle (e : Event) : Prop :=
  match e with
  | Elapse _ | Settle _ _ => True
  | _ => False
  end.

#[global] Instance idle_dec e : Decision (idle e).
Proof. destruct e; apply _. Defined.

(** Events other than a content change made by the user. *)
Definition notEdit (e : Event) : Prop :=
  match e with
  | UserEdit _ => False
  | _ => True
  end.

#[global] Instance notEdit_dec e : Decision (notEdit e).
Proof. destruct e; apply _. Defined.

(** The state without the document and the console. *)
Definition forget (s : State) : State := set_console [] (set_editor None s).

(** The state reached by mounting on [n] and then going through
    [evs]; [None] when a render throws. *)
Definition afterMount (n : Note) (evs : list Event) : option State :=
  match mount n with
  | Rendered s => observe (fun s' => s') (run s evs)
  | Threw => None
  end.

(** *** The status line and the Save button (lines 220-250)

    Each [{cond && <span>...</span>}] contributes its text when [cond]
    holds. The block is rendered only once the editor exists. *)

Inductive StatusText :=
| SavingText
| SavedAtText (t : N)
| UnsavedText
| ReadyText.

Definition shown {A} (cond : bool) (x : A) : list A :=
  if cond then [x] else [].

Definition statusLine (s : State) : list StatusText :=
  shown (isSaving s) SavingText
  ++ match lastSaved s with
     | Some t =>
         shown (negb (isSaving s) && negb (hasUnsavedChanges s))
           (SavedAtText t)
     | None => []
     end
  ++ shown (negb (isSaving s) && hasUnsavedChanges s) UnsavedText
  ++ shown (negb (isSaving s) && negb (bool_decide (is_Some (lastSaved s)))
            && negb (hasUnsavedChanges s)) ReadyText.

(** [disabled={isSaving || !hasUnsavedChanges}] *)
Definition saveButtonDisabled (s : State) : bool :=
  isSaving s || negb (hasUnsavedChanges s).

(** A click on the Save button: [onClick={manualSave}], unless the button
    is disabled or not rendered. *)
Definition clickSave (s : State) : State :=
  match editor s with
  | Some _ => if saveButtonDisabled s then s else manualSave s
  | None => s
  end.

(** *** The keyboard shortcut (lines 194-204) *)

Record KeyboardEvent := mkKeyboardEvent {
  ctrlKey : bool;
  metaKey : bool;
  key : string;
}.

(** [handleKeyDown]; the first component tells whether
    [e.preventDefault()] was called. *)
Definition handleKeyDown (e : KeyboardEvent) (s : State) : bool * State :=
  if (ctrlKey e || metaKey e) && bool_decide (key e = "s"%string)
  then (true, manualSave s)
  else (false, s).

(** *** Further observations *)

(** Events by which the user asks for something to be saved. *)
Definition isUserAction (e : Event) : Prop :=
  match e with
  | UserEdit _ | ManualSave => True
  | _ => False
  end.

#[global] Instance isUserAction_dec e : Decision (isUserAction e).
Proof. destruct e; apply _. Defined.

Definition userActions (evs : list Event) : nat :=
  length (filter isUserAction evs).

(** The delay with which a callback is scheduled. *)
Definition delayOf (cb : TimerCallback) : N :=
  match cb with
  | SaveCallback _ _ => 2000
  | LoadingDone => 100
  end.

(** Bookkeeping of the timer queue: handles are fresh, the handle in
    [saveTimeoutRef] is never that of a loading timer, a raised loading
    flag has its timer pending, and no timer is due later than its
    delay from now. *)
Record Sched s : Prop := {
  sched_fresh : Forall (fun t => handle t < nextHandle s) (timers s);
  sched_ref : forall h, saveTimeoutRef s = Some h -> h < nextHandle s;
  sched_ref_save :
    Forall (fun t => saveTimeoutRef s = Some (handle t) -> isSave t)
      (timers s);
  sched_loading :
    isLoadingNoteRef s = true ->
    Exists (fun t => callback t = LoadingDone) (timers s);
  sched_due :
    Forall (fun t => due t <= now s + delayOf (callback t)) (timers s);
}.

End WithEngine.
End NoteEditor.

(** ** pages/SubjectDetailPage: selection and title editing

    The page owns which note the editor shows. [String.prototype.trim]
    is taken as a parameter. *)

Module SubjectDetailPage.

Record PageState := mkPageState {
  selectedNote : option Note;
  isEditingTitle : bool;
  editedTitle : string;
}.

Definition set_selectedNote (v : option Note) (st : PageState) : PageState :=
  {| selectedNote := v; isEditingTitle := isEditingTitle st;
     editedTitle := editedTitle st |}.

Definition set_isEditingTitle (v : bool) (st : PageState) : PageState :=
  {| selectedNote := selectedNote st; isEditingTitle := v;
     editedTitle := editedTitle st |}.



Definition handleStartEditTitle (st : PageState) : PageState :=
  match selectedNote st with
  | Some sel =>
      {| selectedNote := selectedNote st; isEditingTitle := true;
         editedTitle := title sel |}
  | None => st
  end.

Definition handleCancelEditTitle (st : PageState) : PageState :=
  {| selectedNote := selectedNote st; isEditingTitle := false;
     editedTitle := EmptyString |}.

(** [{ title: editedTitle.trim() }] *)
Definition titleUpdate (newTitle : string) : NoteUpdate :=
  {| upd_title := Some newTitle; upd_content_json := None |}.

(** [{ ...selectedNote, title: editedTitle.trim() }] *)
Definition retitled (sel : Note) (newTitle : string) : Note :=
  {| id := id sel; subject_id := subject_id sel; title := newTitle;
     content_json := content_json sel |}.

(** [handleSaveTitle]: the [updateNote] request it makes, if any, and the
    page state it leaves. When the request is rejected the handler stops
    at the [await]. *)
Definition handleSaveTitle (trim : string -> string) (ok : bool)
    (st : PageState) : option (Z * NoteUpdate) * PageState :=
  match selectedNote st with
  | Some sel =>
      if bool_decide (trim (editedTitle st) <> EmptyString)
         && bool_decide (editedTitle st <> title sel)
      then
        let request := (id sel, titleUpdate (trim (editedTitle st))) in
        if ok then
          (Some request,
           set_isEditingTitle false
             (set_selectedNote
                (Some (retitled sel (trim (editedTitle st)))) st))
        else (Some request, st)
      else (None, set_isEditingTitle false st)
  | None => (None, set_isEditingTitle false st)
  end.

End SubjectDetailPage.

(** ** A concrete engine for running the model

    Documents are identified with their serialised text: [JSON.parse]
    accepts exactly the well-formed JSON texts (RFC 8259) and the editor
    hands the text back unchanged. *)

Module SampleEngine.

Local Open Scope char_scope.
Local Open Scope nat_scope.

Definition quote : ascii := "034".
Definition backslash : ascii := "092".

Definition code (c : ascii) : nat := nat_of_ascii c.

Definition isDigit (c : ascii) : bool := (48 <=? code c) && (code c <=? 57).

Definition isHex (c : ascii) : bool :=
  isDigit c || ((65 <=? code c) && (code c <=? 70))
            || ((97 <=? code c) && (code c <=? 102)).

Definition isWs (c : ascii) : bool :=
  match code c with 32 | 9 | 10 | 13 => true | _ => false end.

Fixpoint skipWs (cs : list ascii) : list ascii :=
  match cs with
  | c :: r => if isWs c then skipWs r else cs
  | [] => []
  end.

Fixpoint skipDigits (cs : list ascii) : list ascii :=
  match cs with
  | c :: r => if isDigit c then skipDigits r else cs
  | [] => []
  end.

(** One or more digits. *)
Definition digits1 (cs : list ascii) : option (list ascii) :=
  match cs with
  | c :: r => if isDigit c then Some (skipDigits r) else None
  | [] => None
  end.

Definition fraction (cs : list ascii) : option (list ascii) :=
  match cs with
  | "." :: r => digits1 r
  | _ => Some cs
  end.

Definition exponent (cs : list ascii) : option (list ascii) :=
  match cs with
  | "e" :: r | "E" :: r =>
      match r with
      | "+" :: r' | "-" :: r' => digits1 r'
      | _ => digits1 r
      end
  | _ => Some cs
  end.

Definition integer (cs : list ascii) : option (list ascii) :=
  match cs with
  | "0" :: r => Some r
  | c :: r => if isDigit c then Some (skipDigits r) else None
  | [] => None
  end.

Definition number (cs : list ascii) : option (list ascii) :=
  let body := match cs with "-" :: r => r | _ => cs end in
  (integer body ≫= fraction) ≫= exponent.

(** The input after the closing quote of a string whose opening quote
    has been read. *)
Definition isEscape (c : ascii) : bool :=
  bool_decide (c ∈ [quote; backslash; "/"; "b"; "f"; "n"; "r"; "t"]).

Fixpoint stringBody (cs : list ascii) : option (list ascii) :=
  match cs with
  | [] => None
  | c :: r =>
      if decide (c = quote) then Some r
      else if decide (c = backslash) then
        match r with
        | e :: r' =>
            if decide (e = "u") then
              match r' with
              | h1 :: h2 :: h3 :: h4 :: r'' =>
                  if isHex h1 && isHex h2 && isHex h3 && isHex h4
                  then stringBody r'' else None
              | _ => None
              end
            else if isEscape e then stringBody r'
            else None
        | [] => None
        end
      else if code c <? 32 then None
      else stringBody r
  end.

Definition literal (w : string) (cs : list ascii) : option (list ascii) :=
  let l := list_ascii_of_string w in
  if decide (take (length l) cs = l) then Some (drop (length l) cs)
  else None.

(** [value fuel cs]: the input left after one JSON value and the white
    space around it. [elements] and [members] read the rest of an array
    or object after one of its items. *)
Fixpoint value (fuel : nat) (cs : list ascii) : option (list ascii) :=
  match fuel with
  | O => None
  | S fuel' =>
      skipWs <$>
      match skipWs cs with
      | "[" :: r =>
          match skipWs r with
          | "]" :: r' => Some r'
          | _ => value fuel' r ≫= elements fuel'
          end
      | "{" :: r =>
          match skipWs r with
          | "}" :: r' => Some r'
          | _ => member fuel' r ≫= members fuel'
          end
      | "t" :: _ => literal "true" (skipWs cs)
      | "f" :: _ => literal "false" (skipWs cs)
      | "n" :: _ => literal "null" (skipWs cs)
      | c :: r =>
          if decide (c = quote) then stringBody r else number (c :: r)
      | [] => None
      end
  end
with elements (fuel : nat) (cs : list ascii) : option (list ascii) :=
  match fuel with
  | O => None
  | S fuel' =>
      match cs with
      | "]" :: r => Some r
      | "," :: r => value fuel' r ≫= elements fuel'
      | _ => None
      end
  end
with member (fuel : nat) (cs : list ascii) : option (list ascii) :=
  match fuel with
  | O => None
  | S fuel' =>
      match skipWs cs with
      | c :: r =>
          if decide (c = quote) then
            match skipWs <$> stringBody r with
            | Some (":" :: r') => value fuel' r'
            | _ => None
            end
          else None
      | [] => None
      end
  end
with members (fuel : nat) (cs : list ascii) : option (list ascii) :=
  match fuel with
  | O => None
  | S fuel' =>
      match cs with
      | "}" :: r => Some r
      | "," :: r => member fuel' r ≫= members fuel'
      | _ => None
      end
  end.

Definition wellFormed (text : string) : bool :=
  let cs := list_ascii_of_string text in
  match value (S (length cs)) cs with
  | Some [] => true
  | _ => false
  end.

#[global] Instance engine : DocEngine := {|
  JSONContent := string;
  Doc := string;
  JSON_parse := fun text => if wellFormed text then Some text else None;
  JSON_stringify := fun j => j;
  getJSON := fun d => d;
  docOfJSON := fun j => j;
  emptyDoc := "{}"%string;
|}.

End SampleEngine.

(** ** Concrete notes, caches and editor states *)

Module Scenario.

Import UseNotes NoteEditor SampleEngine.

Local Open Scope string_scope.
Local Open Scope N_scope.

Definition noteA : Note := mkNote 1 1 "A" "{}".
Definition noteB : Note := mkNote 2 1 "B" "[]".
Definition note5 : Note := mkNote 5 1 "five" "{}".

(** A note whose stored document is not JSON. *)
Definition brokenNote : Note := mkNote 3 1 "broken" "{".

(** A note stored with an empty document string. *)
Definition blankNote : Note := mkNote 4 1 "blank" EmptyString.

(** The list cached for subject 1. *)
Definition cache1 : gmap Z NoteList :=
  {[ 1%Z := mkNoteList [noteA; note5] 2 (Some 1%Z) ]}.

Definition titleX : NoteUpdate :=
  {| upd_title := Some "X"; upd_content_json := None |}.

(** [NoteEditor] showing [noteA], 100 ms after the mount. *)
Definition ready : State :=
  {| note := noteA; editor := Some "{}"; isSaving := false;
     lastSaved := None; hasUnsavedChanges := false;
     saveTimeoutRef := None; isLoadingNoteRef := false;
     now := 100; nextHandle := 2; timers := []; calls := [];
     inflight := []; console := [] |}.

(** The same after the user changed the document to [[1]]: the debounce
    timer is pending. *)
Definition dirty : State :=
  {| note := noteA; editor := Some "[1]"; isSaving := false;
     lastSaved := None; hasUnsavedChanges := true;
     saveTimeoutRef := Some 2; isLoadingNoteRef := false;
     now := 100; nextHandle := 3;
     timers := [mkTimer 2 2100 (SaveCallback 1 "[1]")]; calls := [];
     inflight := []; console := [] |}.

(** Right after the parent switched from [noteA] to [noteB]. *)
Definition loadingB : State :=
  {| note := noteB; editor := Some "[]"; isSaving := false;
     lastSaved := None; hasUnsavedChanges := false;
     saveTimeoutRef := None; isLoadingNoteRef := true;
     now := 100; nextHandle := 3;
     timers := [mkTimer 2 200 LoadingDone]; calls := [];
     inflight := []; console := [] |}.

(** [dirty] after its timer fired and the call is awaiting its answer. *)
Definition saving : State :=
  {| note := noteA; editor := Some "[1]"; isSaving := true;
     lastSaved := None; hasUnsavedChanges := true;
     saveTimeoutRef := Some 2; isLoadingNoteRef := false;
     now := 2100; nextHandle := 3; timers := [];
     calls := [mkCall 1 (contentUpdate "[1]")];
     inflight := [FromAutoSave]; console := [] |}.

(** An edit of [noteA], then a switch to [noteB] before the quiet
    period is over. *)
Definition switchRun : list Event :=
  [Elapse 100; UserEdit "[1]"; Rerender noteB; Elapse 2000].

(** Ctrl+S. *)
Definition ctrlS : KeyboardEvent := mkKeyboardEvent true false "s".

(** [noteA] as the cache holds it once the edit [[1]] has been saved. *)
Definition noteA' : Note := mkNote 1 1 "A" "[1]".

(** [String.prototype.trim] on ASCII text: blanks are the space and the
    control characters 9 to 13. *)
Definition isBlank (c : ascii) : bool :=
  bool_decide (c = " "%char)
  || ((9 <=? nat_of_ascii c)%nat && (nat_of_ascii c <=? 13)%nat).

Fixpoint dropBlanks (cs : list ascii) : list ascii :=
  match cs with
  | c :: rest => if isBlank c then dropBlanks rest else cs
  | [] => []
  end.

Definition trimAscii (text : string) : string :=
  string_of_list_ascii
    (rev (dropBlanks (rev (dropBlanks (list_ascii_of_string text))))).

(** The page with [noteA] selected and its title being edited. *)
Definition renaming : SubjectDetailPage.PageState :=
  SubjectDetailPage.mkPageState (Some noteA) true " Algebra ".

End Scenario.

(** * Properties of the optimistic cache (hooks/useNotes.ts) *)

Section UseNotesProperties.

Import UseNotes.

Implicit Types (qc : gmap Z NoteList) (data : NoteUpdate).

(** The cached note at position [i] of the list of one subject. *)
Definition entryAt (subjectId : Z) (i : nat) qc : option Note :=
  getQueryData subjectId qc ≫= fun l => notes l !! i.

Lemma rewriteNotes_lookup noteId data old (i : nat) :
  notes (rewriteNotes noteId data old) !! i =
    (fun note => if decide (id note = noteId)
                 then spread note data else note) <$> notes old !! i.
Proof. unfold rewriteNotes; simpl. apply list_lookup_fmap. Qed.

Lemma rewriteNotes_no_match noteId data old :
  Forall (fun note => id note <> noteId) (notes old) ->
  rewriteNotes noteId data old = old.
Proof.
  destruct old as [ns t sid]; unfold rewriteNotes; simpl; intros Hall.
  f_equal. induction Hall as [|n ns' Hn _ IH]; csimpl; [done|].
  rewrite decide_False by done. by rewrite IH.
Qed.

Lemma onMutate_cache subjectId noteId data qc :
  (onMutate subjectId noteId data qc).2 =
    match qc !! subjectId with
    | Some old => <[subjectId := rewriteNotes noteId data old]> qc
    | None => qc
    end.
Proof.
  unfold onMutate, setQueryDataWith, updater, getQueryData, setQueryData.
  simpl. by destruct (qc !! subjectId).
Qed.

Lemma onMutate_other_key subjectId noteId data qc k :
  k <> subjectId ->
  (onMutate subjectId noteId data qc).2 !! k = qc !! k.
Proof.
  intros Hk. rewrite onMutate_cache.
  destruct (qc !! subjectId); [|done]. by rewrite lookup_insert_ne.
Qed.

(** C4. Snapshot, optimistic mutation, failure: [onError] puts the cache
    back exactly as it was before [onMutate], whatever the cache, the
    note id and the partial update; in particular the entry of the
    mutated note reads as before. The snapshot kept in the context is
    the cache content at the time of the mutation, and when there is one
    [onError] reinstalls it whatever the cache has become meanwhile. *)
Theorem rollback_restores_snapshot subjectId noteId data qc :
  let ctx := (onMutate subjectId noteId data qc).1 in
  let mutated := (onMutate subjectId noteId data qc).2 in
  previousNotes ctx = getQueryData subjectId qc /\
  onError subjectId (Some ctx) mutated = qc /\
  cachedNote subjectId noteId (onError subjectId (Some ctx) mutated)
    = cachedNote subjectId noteId qc /\
  (forall later old, getQueryData subjectId qc = Some old ->
     getQueryData subjectId (onError subjectId (Some ctx) later) = Some old).
Proof.
  intros ctx mutated.
  assert (Hback : onError subjectId (Some ctx) mutated = qc).
  { subst ctx mutated. rewrite onMutate_cache.
    unfold onError, onMutate, getQueryData, setQueryData; simpl.
    destruct (qc !! subjectId) as [old|] eqn:Hold; [|done].
    rewrite insert_insert_eq. by apply insert_id. }
  split_and!; [done|done|by rewrite Hback|].
  intros later old Hold. subst ctx.
  unfold onError, onMutate, getQueryData, setQueryData in *; simpl.
  rewrite Hold. apply lookup_insert_eq.
Qed.

(** C9. The optimistic mutation leaves every entry whose id differs from
    [noteId] where it was and as it was, keeps the number of entries and
    the other fields of the cached list, leaves the lists cached for
    other subjects alone, and is the identity on the cache when there is
    no cached list yet or when no cached entry has id [noteId]. *)
Theorem mutate_frame subjectId noteId data qc :
  let mutated := (onMutate subjectId noteId data qc).2 in
  (forall i note, entryAt subjectId i qc = Some note ->
     id note <> noteId -> entryAt subjectId i mutated = Some note) /\
  (forall old, getQueryData subjectId qc = Some old ->
     exists new, getQueryData subjectId mutated = Some new /\
       length (notes new) = length (notes old) /\
       total new = total old /\
       list_subject_id new = list_subject_id old) /\
  (forall k, k <> subjectId -> mutated !! k = qc !! k) /\
  (getQueryData subjectId qc = None -> mutated = qc) /\
  (forall old, getQueryData subjectId qc = Some old ->
     Forall (fun note => id note <> noteId) (notes old) -> mutated = qc).
Proof.
  intros mutated. subst mutated. split_and!.
  - intros i note Hi Hne. rewrite onMutate_cache.
    unfold entryAt, getQueryData in *.
    destruct (qc !! subjectId) as [old|] eqn:Hold; [|done].
    rewrite lookup_insert_eq.
    change (notes (rewriteNotes noteId data old) !! i = Some note).
    change (notes old !! i = Some note) in Hi.
    rewrite rewriteNotes_lookup, Hi; simpl.
    by rewrite decide_False.
  - unfold getQueryData. intros old Hold. rewrite onMutate_cache, Hold.
    exists (rewriteNotes noteId data old). rewrite lookup_insert_eq.
    split_and!; try done. unfold rewriteNotes; simpl. apply length_fmap.
  - intros k Hk. by apply onMutate_other_key.
  - unfold getQueryData. intros Hnone. by rewrite onMutate_cache, Hnone.
  - unfold getQueryData. intros old Hold Hall.
    rewrite onMutate_cache, Hold, rewriteNotes_no_match by done.
    by apply insert_id.
Qed.

End UseNotesProperties.

(** * Properties of the auto-save state machine (NoteEditor) *)

Section NoteEditorProperties.

Import NoteEditor.

Context `{DocEngine}.

Local Open Scope N_scope.

Implicit Types (s : State) (t : Timer) (q : list Timer) (d : Doc).

(** ** The timer queue *)

Lemma insertTimer_perm t q : insertTimer t q ≡ₚ t :: q.
Proof.
  induction q as [|u q IH]; simpl; [done|].
  case_decide; [|done]. rewrite IH. apply Permutation_swap.
Qed.

Lemma elem_of_insertTimer t u q : u ∈ insertTimer t q <-> u = t \/ u ∈ q.
Proof. rewrite insertTimer_perm. apply elem_of_cons. Qed.

Lemma filter_insertTimer_skip (P : Timer -> Prop) `{!forall x, Decision (P x)}
    t q :
  ~ P t -> filter P (insertTimer t q) = filter P q.
Proof.
  intros Ht. induction q as [|u q IH]; simpl.
  - by rewrite filter_cons_False.
  - case_decide.
    + rewrite !filter_cons. by rewrite IH.
    + by rewrite (filter_cons_False _ t).
Qed.

Lemma filter_insertTimer_only (P : Timer -> Prop)
    `{!forall x, Decision (P x)} t q :
  P t -> filter P q = [] -> filter P (insertTimer t q) = [t].
Proof.
  intros Ht Hq. apply Permutation_singleton_r.
  by rewrite insertTimer_perm, filter_cons_True, Hq.
Qed.

Lemma filter_comm {A} (P Q : A -> Prop) `{!forall x, Decision (P x)}
    `{!forall x, Decision (Q x)} (l : list A) :
  filter P (filter Q l) = filter Q (filter P l).
Proof. rewrite !list_filter_filter. apply list_filter_iff. tauto. Qed.


Lemma omap_callOf_saves q : omap callOf q = omap callOf (filter isSave q).
Proof.
  induction q as [|t q IH]; [done|].
  rewrite filter_cons. destruct (decide (isSave t)) as [Ht|Ht]; csimpl;
    rewrite <- IH; [done|].
  unfold isSave, callOf in *. by destruct (callback t).
Qed.

(** ** Firing timers *)

Lemma fire_frame s t : sameScheduling s (fire s t).
Proof. unfold sameScheduling, fire, runCallback. by destruct (callback t). Qed.

Lemma foldl_fire_frame q s : sameScheduling s (foldl fire s q).
Proof.
  revert s. induction q as [|t q IH]; intros s; simpl; [done|].
  destruct (IH (fire s t)) as (?&?&?&?&?&?&?&?).
  destruct (fire_frame s t) as (?&?&?&?&?&?&?&?).
  unfold sameScheduling. split_and!; congruence.
Qed.

Lemma foldl_fire_calls q s :
  calls (foldl fire s q) = calls s ++ omap callOf q.
Proof.
  revert s. induction q as [|t q IH]; intros s; simpl.
  - by rewrite app_nil_r.
  - rewrite IH. unfold fire, runCallback, callOf.
    destruct (callback t); simpl; [|done]. by rewrite <- app_assoc.
Qed.

Lemma foldl_fire_loading_false q s :
  isLoadingNoteRef s = false -> isLoadingNoteRef (foldl fire s q) = false.
Proof.
  revert s. induction q as [|t q IH]; intros s Hs; simpl; [done|].
  apply IH. unfold fire, runCallback. by destruct (callback t).
Qed.

Lemma foldl_fire_loading_done q s t :
  t ∈ q -> callback t = LoadingDone ->
  isLoadingNoteRef (foldl fire s q) = false.
Proof.
  revert s. induction q as [|u q IH]; intros s Hin Hcb; simpl.
  - by apply elem_of_nil in Hin.
  - apply elem_of_cons in Hin as [->|Hin]; [|by apply IH].
    apply foldl_fire_loading_false. unfold fire. by rewrite Hcb.
Qed.

(** ** Time passing *)

Lemma elapse_frame ms s :
  note (elapse ms s) = note s /\ editor (elapse ms s) = editor s /\
  lastSaved (elapse ms s) = lastSaved s /\
  hasUnsavedChanges (elapse ms s) = hasUnsavedChanges s /\
  saveTimeoutRef (elapse ms s) = saveTimeoutRef s /\
  nextHandle (elapse ms s) = nextHandle s /\
  console (elapse ms s) = console s /\
  now (elapse ms s) = now s + ms.
Proof.
  unfold elapse; simpl.
  match goal with |- context [foldl fire ?s0 ?q0] =>
    destruct (foldl_fire_frame q0 s0) as (?&?&?&?&?&?&?&?) end.
  split_and!; try done; congruence.
Qed.

Lemma elapse_timers ms s :
  timers (elapse ms s) = filter (fun t => ~ due t <= now s + ms) (timers s).
Proof.
  unfold elapse; simpl.
  match goal with |- context [foldl fire ?s0 ?q0] =>
    destruct (foldl_fire_frame q0 s0) as (?&?&?&?&?&?&Ht&?) end.
  by rewrite Ht.
Qed.

Lemma elapse_saveTimers ms s :
  saveTimers (elapse ms s)
    = filter (fun t => ~ due t <= now s + ms) (saveTimers s).
Proof. unfold saveTimers. rewrite elapse_timers. apply filter_comm. Qed.

(** The calls issued while time passes are those of the debounce timers
    that fall due, with the note id and content captured when each was
    set. *)
Lemma elapse_calls ms s :
  calls (elapse ms s)
    = calls s
      ++ omap callOf (filter (fun t => due t <= now s + ms) (saveTimers s)).
Proof.
  unfold elapse; simpl. rewrite foldl_fire_calls; simpl.
  f_equal. rewrite omap_callOf_saves. unfold saveTimers.
  by rewrite filter_comm.
Qed.


Lemma elapse_loading_false ms s :
  isLoadingNoteRef s = false -> isLoadingNoteRef (elapse ms s) = false.
Proof. intros Hs. unfold elapse; simpl. by apply foldl_fire_loading_false. Qed.

(** ** The loading guard *)

Lemma onUpdate_guarded s : isLoadingNoteRef s = true -> onUpdate s = s.
Proof. unfold onUpdate. by intros ->. Qed.

Lemma transact_guarded d s :
  isLoadingNoteRef s = true ->
  transact d s = match editor s with
                 | Some _ => set_editor (Some d) s
                 | None => s
                 end.
Proof.
  intros Hs. unfold transact. destruct (editor s); [|done].
  by apply onUpdate_guarded.
Qed.

(** With the flag up, loading content changes the document and may log
    a parse failure; nothing else. *)
Lemma loadContent_guarded s :
  isLoadingNoteRef s = true ->
  exists e c, loadContent s = set_console c (set_editor e s).
Proof.
  intros Hs. unfold loadContent.
  destruct (editor s) as [d|] eqn:Hd;
    [|exists None, (console s); by destruct s; simpl in *; subst].
  repeat case_decide;
    try (exists (Some d), (console s); by destruct s; simpl in *; subst).
  destruct (JSON_parse _) as [parsed|].
  - rewrite transact_guarded, Hd by done.
    exists (Some (docOfJSON parsed)), (console s). by destruct s.
  - rewrite transact_guarded by done. simpl. rewrite Hd.
    by exists (Some emptyDoc), (console s ++ [ParseFailed]).
Qed.

Lemma noteEffect_shape s :
  exists e c,
    noteEffect s =
      set_nextHandle (nextHandle s + 1)
        (set_timers
           (insertTimer (mkTimer (nextHandle s) (now s + 100) LoadingDone)
              (timers s))
           (set_console c (set_editor e
              (set_lastSaved None
                 (set_hasUnsavedChanges false
                    (set_isLoadingNoteRef true s)))))).
Proof.
  unfold noteEffect.
  destruct (loadContent_guarded
              (set_lastSaved None
                 (set_hasUnsavedChanges false (set_isLoadingNoteRef true s))))
    as (e & c & ->); [done|].
  by exists e, c.
Qed.

(** What a completed render with new props does, in both cases of the
    dependency check. *)
Lemma commit_frame n s :
  note (commit n s) = n /\
  calls (commit n s) = calls s /\
  inflight (commit n s) = inflight s /\
  isSaving (commit n s) = isSaving s /\
  saveTimeoutRef (commit n s) = saveTimeoutRef s /\
  now (commit n s) = now s /\
  saveTimers (commit n s) = saveTimers s.
Proof.
  unfold commit. case_decide; [done|].
  destruct (noteEffect_shape (set_note n s)) as (e & c & ->).
  unfold saveTimers; simpl. split_and!; try done.
  apply filter_insertTimer_skip. unfold isSave; simpl. tauto.
Qed.

Lemma commit_switch n s :
  id n <> id (note s) ->
  hasUnsavedChanges (commit n s) = false /\
  lastSaved (commit n s) = None /\
  isLoadingNoteRef (commit n s) = true /\
  timers (commit n s)
    = insertTimer (mkTimer (nextHandle s) (now s + 100) LoadingDone)
        (timers s).
Proof.
  intros Hid. unfold commit. rewrite decide_False by tauto.
  by destruct (noteEffect_shape (set_note n s)) as (e & c & ->).
Qed.

(** ** The single-timer discipline *)

Lemma filter_none {A} (P : A -> Prop) `{!forall x, Decision (P x)}
    (l : list A) :
  Forall (fun x => ~ P x) l -> filter P l = [].
Proof.
  induction 1 as [|x l Hx _ IH]; [done|]. by rewrite filter_cons_False.
Qed.

Lemma Forall_filter_weaken {A} (P Q : A -> Prop)
    `{!forall x, Decision (Q x)} (l : list A) :
  Forall P l -> Forall P (filter Q l).
Proof.
  rewrite !Forall_forall. intros Hl x Hx.
  apply list_elem_of_filter in Hx as [_ Hx]. by apply Hl.
Qed.

Lemma length_filter_le {A} (P : A -> Prop) `{!forall x, Decision (P x)}
    (l : list A) (k : nat) :
  (length l <= k)%nat -> (length (filter P l) <= k)%nat.
Proof. intros Hl. pose proof (length_filter P l). lia. Qed.

Lemma clearTimeout_saveTimers h s :
  saveTimers (clearTimeout h s)
    = filter (fun t => handle t <> h) (saveTimers s).
Proof. unfold saveTimers, clearTimeout; simpl. apply filter_comm. Qed.

(** Clearing the timer the ref points to leaves no debounce timer. *)
Lemma clearSaveTimeout_saveTimers s :
  Forall (fun t => saveTimeoutRef s = Some (handle t)) (saveTimers s) ->
  saveTimers (clearSaveTimeout s) = [].
Proof.
  intros Href. unfold clearSaveTimeout.
  destruct (saveTimeoutRef s) as [h|] eqn:Hh.
  - rewrite clearTimeout_saveTimers. apply filter_none.
    eapply Forall_impl; [exact Href|]. simpl. intros t Ht Hne.
    congruence.
  - destruct (saveTimers s) as [|t q]; [done|].
    by apply Forall_cons in Href as [? _].
Qed.

Lemma clearSaveTimeout_frame s :
  exists q, clearSaveTimeout s = set_timers q s.
Proof.
  unfold clearSaveTimeout, clearTimeout.
  destruct (saveTimeoutRef s); [by eexists|].
  exists (timers s). by destruct s.
Qed.

Lemma autoSave_frame content s :
  note (autoSave content s) = note s /\
  editor (autoSave content s) = editor s /\
  calls (autoSave content s) = calls s /\
  inflight (autoSave content s) = inflight s /\
  now (autoSave content s) = now s /\
  isLoadingNoteRef (autoSave content s) = isLoadingNoteRef s /\
  hasUnsavedChanges (autoSave content s) = true /\
  saveTimeoutRef (autoSave content s) = Some (nextHandle s).
Proof.
  unfold autoSave, setTimeout.
  destruct (clearSaveTimeout_frame (set_hasUnsavedChanges true s))
    as (q & ->).
  done.
Qed.

Lemma autoSave_saveTimers content s :
  Forall (fun t => saveTimeoutRef s = Some (handle t)) (saveTimers s) ->
  saveTimers (autoSave content s) = [debounceTimer content s].
Proof.
  intros Href.
  pose proof (clearSaveTimeout_saveTimers
                (set_hasUnsavedChanges true s) Href) as Hclr.
  revert Hclr. unfold autoSave, setTimeout.
  destruct (clearSaveTimeout_frame (set_hasUnsavedChanges true s))
    as (q & ->).
  unfold saveTimers; simpl. intros Hq.
  apply filter_insertTimer_only; [by unfold isSave|done].
Qed.

Lemma autoSave_Inv content s :
  Inv s -> isLoadingNoteRef s = false -> Inv (autoSave content s).
Proof.
  intros [Href _ _] Hg.
  destruct (autoSave_frame content s) as (_&_&_&_&_&Hg'&_&Hr).
  split.
  - rewrite autoSave_saveTimers, Hr by done. by apply Forall_singleton.
  - by rewrite autoSave_saveTimers.
  - rewrite Hg', Hg. done.
Qed.

Lemma transact_Inv d s : Inv s -> Inv (transact d s).
Proof.
  intros HI. unfold transact. destruct (editor s); [|done].
  unfold onUpdate; simpl.
  destruct (isLoadingNoteRef s) eqn:Hg.
  - by destruct HI.
  - apply (autoSave_Inv _ (set_editor (Some d) s)); [|done].
    by destruct HI.
Qed.

Lemma commit_Inv n s : Inv s -> Inv (commit n s).
Proof.
  intros [Href Hone Hg].
  destruct (commit_frame n s) as (_&_&_&_&Hr&_&Ht).
  split; rewrite ?Ht, ?Hr; try done.
  unfold commit. case_decide; [done|].
  by destruct (noteEffect_shape (set_note n s)) as (e & c & ->).
Qed.

Lemma manualSave_Inv s : Inv s -> Inv (manualSave s).
Proof.
  intros HI. unfold manualSave. destruct (editor s); [|done].
  destruct (hasUnsavedChanges s) eqn:Hu; [|done].
  destruct HI as [Href Hone Hg]. by split.
Qed.

Lemma elapse_Inv ms s : Inv s -> Inv (elapse ms s).
Proof.
  intros [Href Hone Hg].
  destruct (elapse_frame ms s) as (_&_&_&Hu&Hr&_&_&_).
  split; rewrite ?elapse_saveTimers, ?Hr, ?Hu.
  - by apply Forall_filter_weaken.
  - by apply length_filter_le.
  - intros Hg'. apply Hg.
    destruct (isLoadingNoteRef s) eqn:Hs; [done|].
    by rewrite elapse_loading_false in Hg'.
Qed.

Lemma settle_Inv k ok s : Inv s -> Inv (settle k ok s).
Proof.
  intros HI. unfold settle. destruct (inflight s !! k); [|done].
  destruct HI as [Href Hone Hg]. by destruct ok; split.
Qed.

Lemma unmount_saveTimers s : Inv s -> saveTimers (unmount s) = [].
Proof. intros [Href _ _]. by apply clearSaveTimeout_saveTimers. Qed.

Lemma unmount_Inv s : Inv s -> Inv (unmount s).
Proof.
  intros HI. pose proof (unmount_saveTimers s HI) as Hs.
  destruct HI as [Href Hone Hg]. revert Hs. unfold unmount.
  destruct (clearSaveTimeout_frame s) as (q & ->). intros Hs.
  split; rewrite ?Hs; simpl; auto with lia.
Qed.

(** ** Renders that throw *)

Lemma rerender_Rendered n s s' :
  rerender n s = Rendered s' <-> is_Some (initialDoc n) /\ s' = commit n s.
Proof.
  unfold rerender. destruct (initialDoc n) as [d|]; split.
  - intros [= <-]. split; [by eexists|done].
  - by intros [_ ->].
  - done.
  - by intros [[? ?] _].
Qed.

Lemma rerender_Threw n s : rerender n s = Threw <-> initialDoc n = None.
Proof. unfold rerender. by destruct (initialDoc n). Qed.

(** A step that completes, event by event. *)
Lemma step_Rendered s e s' :
  step s e = Rendered s' ->
  match e with
  | UserEdit d => s' = transact d s
  | Rerender n => is_Some (initialDoc n) /\ s' = commit n s
  | ManualSave => s' = manualSave s
  | Elapse ms => s' = elapse ms s
  | Settle k ok => s' = settle k ok s
  | Unmount => s' = unmount s
  end.
Proof.
  destruct e; simpl; try by intros [= <-].
  apply rerender_Rendered.
Qed.

Lemma run_cons_Rendered s e evs s'' :
  run s (e :: evs) = Rendered s'' <->
  exists s', step s e = Rendered s' /\ run s' evs = Rendered s''.
Proof.
  simpl. destruct (step s e) as [s'|]; split.
  - intros Hrun. by exists s'.
  - by intros (s1 & [= <-] & Hrun).
  - done.
  - by intros (s1 & ? & _).
Qed.

(** Induction along a run that completes. *)
Lemma run_ind (P : State -> Prop) :
  (forall s e s', P s -> step s e = Rendered s' -> P s') ->
  forall evs s s', P s -> run s evs = Rendered s' -> P s'.
Proof.
  intros Hstep evs. induction evs as [|e evs IH]; intros s s' Hs Hrun.
  - by injection Hrun as <-.
  - apply run_cons_Rendered in Hrun as (s1 & Hs1 & Hrun).
    eapply IH; [|exact Hrun]. by eapply Hstep.
Qed.

Lemma step_Inv s e s' : Inv s -> step s e = Rendered s' -> Inv s'.
Proof.
  intros HI Hstep. apply step_Rendered in Hstep.
  destruct e as [d|n| |ms|k ok|].
  - subst s'. by apply transact_Inv.
  - destruct Hstep as [_ ->]. by apply commit_Inv.
  - subst s'. by apply manualSave_Inv.
  - subst s'. by apply elapse_Inv.
  - subst s'. by apply settle_Inv.
  - subst s'. by apply unmount_Inv.
Qed.

Lemma run_Inv evs s s' : Inv s -> run s evs = Rendered s' -> Inv s'.
Proof. apply (run_ind Inv). intros s1 e s2 HI. by apply step_Inv. Qed.

Lemma mount_Inv n s : mount n = Rendered s -> Inv s.
Proof.
  unfold mount. destruct (initialDoc n) as [d|]; [|done].
  intros [= <-].
  match goal with |- Inv (noteEffect ?s0) =>
    destruct (noteEffect_shape s0) as (e & c & ->) end.
  split; unfold saveTimers; simpl; try done. lia.
Qed.

(** ** Debouncing *)

Lemma transact_unguarded d s :
  Inv s -> isLoadingNoteRef s = false -> is_Some (editor s) ->
  let s1 := transact d s in
  saveTimers s1 = [debounceTimer (serialize d) s] /\
  calls s1 = calls s /\ now s1 = now s /\ note s1 = note s /\
  editor s1 = Some d /\ isLoadingNoteRef s1 = false /\
  hasUnsavedChanges s1 = true.
Proof.
  intros [Href _ _] Hg [d0 Hd]. unfold transact, onUpdate. rewrite Hd.
  simpl. rewrite Hg.
  destruct (autoSave_frame (serialize d) (set_editor (Some d) s))
    as (?&?&?&?&?&?&?&?).
  split_and!; try done.
  - by rewrite autoSave_saveTimers.
  - by rewrite H5.
Qed.

(** An edit followed by a pause shorter than the quiet period issues no
    call and leaves its timer pending. *)
Lemma edit_then_pause d gap s :
  Inv s -> isLoadingNoteRef s = false -> is_Some (editor s) ->
  gap < 2000 ->
  let s1 := elapse gap (transact d s) in
  calls s1 = calls s /\ note s1 = note s /\ editor s1 = Some d /\
  isLoadingNoteRef s1 = false.
Proof.
  intros HI Hg Hed Hgap.
  destruct (transact_unguarded d s HI Hg Hed) as (Hq&Hc&Hn&Hnote&He&Hg'&_).
  destruct (elapse_frame gap (transact d s)) as (?&?&_). cbv zeta.
  split_and!; try congruence.
  - rewrite elapse_calls, Hq, Hn, filter_cons_False, Hc; simpl.
    + apply app_nil_r.
    + lia.
  - by apply elapse_loading_false.
Qed.

(** An edit followed by the quiet period issues exactly the call for
    that edit. *)
Lemma edit_then_quiet d quiet s :
  Inv s -> isLoadingNoteRef s = false -> is_Some (editor s) ->
  2000 <= quiet ->
  let s1 := elapse quiet (transact d s) in
  calls s1 = calls s ++ [mkCall (id (note s)) (contentUpdate (serialize d))]
  /\ editor s1 = Some d /\ saveTimers s1 = [].
Proof.
  intros HI Hg Hed Hquiet.
  destruct (transact_unguarded d s HI Hg Hed) as (Hq&Hc&Hn&Hnote&He&Hg'&_).
  destruct (elapse_frame quiet (transact d s)) as (?&?&_). cbv zeta.
  split_and!; try congruence.
  - rewrite elapse_calls, Hq, Hn, filter_cons_True, Hc; simpl; [done|lia].
  - rewrite elapse_saveTimers, Hq, Hn, filter_cons_False; simpl; [done|lia].
Qed.

Lemma run_burst_cons d0 gap (eds : list (Doc * N)) evs s :
  run s (burstEvents ((d0, gap) :: eds) ++ evs)
    = run (elapse gap (transact d0 s)) (burstEvents eds ++ evs).
Proof. done. Qed.

Lemma burst_then_quiet (eds : list (Doc * N)) d quiet s :
  Inv s -> isLoadingNoteRef s = false -> is_Some (editor s) ->
  Forall (fun e => e.2 < 2000) eds -> 2000 <= quiet ->
  exists s',
    run s (burstEvents eds ++ [UserEdit d; Elapse quiet]) = Rendered s' /\
    calls s' = calls s ++ [mkCall (id (note s)) (contentUpdate (serialize d))]
    /\ editor s' = Some d /\ saveTimers s' = [].
Proof.
  intros HI Hg Hed Heds Hquiet. revert s HI Hg Hed.
  induction Heds as [|[d0 gap] eds Hgap _ IH]; intros s HI Hg Hed.
  - exists (elapse quiet (transact d s)). split; [done|].
    by apply (edit_then_quiet d quiet s).
  - destruct (edit_then_pause d0 gap s HI Hg Hed Hgap) as (Hc&Hn&He&Hg').
    cbv zeta in *. rewrite run_burst_cons, <- Hc, <- Hn.
    apply IH; [|done|by rewrite He].
    by apply elapse_Inv, transact_Inv.
Qed.

(** C2. Starting from any state the component can be in with the loading
    flag down, a burst of content-change notifications that follow each
    other within the 2000 ms quiet period, then 2000 ms or more without
    one, runs to completion and issues exactly one persistence call; it
    carries the document as it is when the period elapses, that of the
    last notification. At most one debounce timer is pending at any
    time, whatever happens. *)
Theorem debounce_single_call s (eds : list (Doc * N)) d quiet :
  Inv s -> isLoadingNoteRef s = false -> is_Some (editor s) ->
  Forall (fun e => e.2 < 2000) eds -> 2000 <= quiet ->
  exists s',
    run s (burstEvents eds ++ [UserEdit d; Elapse quiet]) = Rendered s'
    /\ calls s'
       = calls s ++ [mkCall (id (note s)) (contentUpdate (serialize d))]
    /\ editor s' = Some d
    /\ saveTimers s' = []
    /\ forall evs s'', run s evs = Rendered s'' ->
         (length (saveTimers s'') <= 1)%nat.
Proof.
  intros HI Hg Hed Heds Hquiet.
  destruct (burst_then_quiet eds d quiet s HI Hg Hed Heds Hquiet)
    as (s' & Hrun & Hc & He & Ht).
  exists s'. split_and!; try done.
  intros evs s'' Hevs. by destruct (run_Inv evs s s'' HI Hevs).
Qed.

(** ** Where persistence calls come from *)







Lemma mount_fresh n s :
  mount n = Rendered s ->
  calls s = [] /\ saveTimers s = [] /\ note s = n /\
  hasUnsavedChanges s = false /\ isLoadingNoteRef s = true.
Proof.
  unfold mount. destruct (initialDoc n) as [d|]; [|done].
  intros [= <-].
  match goal with |- context [noteEffect ?s0] =>
    destruct (noteEffect_shape s0) as (e & c & ->) end.
  done.
Qed.


Lemma unmount_frame s : calls (unmount s) = calls s /\ now (unmount s) = now s.
Proof. unfold unmount. by destruct (clearSaveTimeout_frame s) as (q & ->). Qed.




(** ** Manual save and completion *)

Lemma manualSave_clean s : hasUnsavedChanges s = false -> manualSave s = s.
Proof. intros Hu. unfold manualSave. rewrite Hu. by destruct (editor s). Qed.

Lemma manualSave_dirty d s :
  editor s = Some d -> hasUnsavedChanges s = true ->
  manualSave s =
    set_inflight (inflight s ++ [FromManualSave])
      (set_calls (calls s ++ [saveOf d s]) (set_isSaving true s)).
Proof. intros Hd Hu. unfold manualSave. by rewrite Hd, Hu. Qed.

Lemma settle_failure_frame k s :
  note (settle k false s) = note s /\
  editor (settle k false s) = editor s /\
  hasUnsavedChanges (settle k false s) = hasUnsavedChanges s /\
  lastSaved (settle k false s) = lastSaved s /\
  saveTimeoutRef (settle k false s) = saveTimeoutRef s /\
  isLoadingNoteRef (settle k false s) = isLoadingNoteRef s /\
  now (settle k false s) = now s /\
  timers (settle k false s) = timers s /\
  calls (settle k false s) = calls s.
Proof. unfold settle. by destruct (inflight s !! k). Qed.

Lemma settle_calls k ok s :
  calls (settle k ok s) = calls s /\ timers (settle k ok s) = timers s.
Proof. unfold settle. destruct (inflight s !! k); [|done]. by destruct ok. Qed.

Lemma length_omap_callOf q :
  Forall isSave q -> length (omap callOf q) = length q.
Proof.
  induction 1 as [|t q Ht _ IH]; [done|]. csimpl.
  unfold isSave, callOf in *. destruct (callback t); [|done].
  simpl. by rewrite IH.
Qed.

Lemma length_filter_split {A} (P : A -> Prop) `{!forall x, Decision (P x)}
    (l : list A) :
  (length (filter P l) + length (filter (fun x => ~ P x) l))%nat = length l.
Proof. by rewrite <- length_app, filter_app_complement. Qed.

Lemma saveTimers_isSave s : Forall isSave (saveTimers s).
Proof.
  apply Forall_forall. intros t Ht.
  by apply list_elem_of_filter in Ht as [? _].
Qed.

(** Time and completions alone never throw, and the calls they issue are
    those of debounce timers that were already pending, each at most
    once. *)
Lemma idle_run evs s :
  Forall idle evs ->
  exists s' extra,
    run s evs = Rendered s' /\
    calls s' = calls s ++ extra /\
    (forall c, c ∈ extra ->
       exists t, t ∈ saveTimers s /\ callOf t = Some c) /\
    (length extra + length (saveTimers s') <= length (saveTimers s))%nat.
Proof.
  intros Hevs. revert s.
  induction Hevs as [|e evs He _ IH]; intros s.
  - exists s, []. split_and!; [done|by rewrite app_nil_r| |simpl; lia].
    by intros c ?%elem_of_nil.
  - destruct e as [| | |ms|k ok|]; try done; cbn [run step].
    + destruct (IH (elapse ms s)) as (s' & extra & Hrun & Hc & Hfrom & Hlen).
      exists s', (omap callOf
                    (filter (fun t => due t <= now s + ms) (saveTimers s))
                  ++ extra).
      rewrite elapse_saveTimers in Hlen.
      split_and!.
      * done.
      * by rewrite Hc, elapse_calls, <- app_assoc.
      * intros c [Hin|Hin]%elem_of_app.
        -- apply list_elem_of_omap in Hin as (t & Ht & Hcall).
           exists t. split; [|done].
           by apply list_elem_of_filter in Ht as [_ ?].
        -- destruct (Hfrom c Hin) as (t & Ht & Hcall).
           exists t. split; [|done]. rewrite elapse_saveTimers in Ht.
           by apply list_elem_of_filter in Ht as [_ ?].
      * rewrite length_app, length_omap_callOf
          by apply Forall_filter_weaken, saveTimers_isSave.
        pose proof (length_filter_split
                      (fun t => due t <= now s + ms) (saveTimers s)). lia.
    + destruct (settle_calls k ok s) as [Hcs Hts].
      assert (Hq : saveTimers (settle k ok s) = saveTimers s).
      { unfold saveTimers. by rewrite Hts. }
      destruct (IH (settle k ok s)) as (s' & extra & Hrun & Hc & Hfrom & Hlen).
      exists s', extra. rewrite Hq in Hlen, Hfrom. rewrite Hcs in Hc.
      by split_and!.
Qed.

(** Without a pending debounce timer, time and completions alone issue
    no call. *)
Lemma idle_run_calls evs s :
  saveTimers s = [] -> Forall idle evs ->
  observe calls (run s evs) = Some (calls s).
Proof.
  intros Hs Hevs.
  destruct (idle_run evs s Hevs) as (s' & extra & -> & Hc & _ & Hlen).
  rewrite Hs in Hlen. destruct extra; [|simpl in Hlen; lia].
  simpl. by rewrite Hc, app_nil_r.
Qed.

(** C3 (as amended). [manualSave] does nothing when there are no unsaved
    changes or no editor. With unsaved changes it issues the persistence
    call at once, with the current document and the active note's id,
    and raises [isSaving]; it leaves the timer queue and
    [saveTimeoutRef] as they are. Once that call has succeeded the dirty
    flag is down and a second [manualSave] does nothing. *)
Theorem manualSave_immediate s :
  (hasUnsavedChanges s = false -> manualSave s = s) /\
  (editor s = None -> manualSave s = s) /\
  (forall d, editor s = Some d -> hasUnsavedChanges s = true ->
     calls (manualSave s) = calls s ++ [saveOf d s] /\
     isSaving (manualSave s) = true /\
     inflight (manualSave s) = inflight s ++ [FromManualSave] /\
     timers (manualSave s) = timers s /\
     saveTimeoutRef (manualSave s) = saveTimeoutRef s /\
     let saved := settle (length (inflight s)) true (manualSave s) in
     hasUnsavedChanges saved = false /\ manualSave saved = saved).
Proof.
  split_and!.
  - apply manualSave_clean.
  - intros Hd. unfold manualSave. by rewrite Hd.
  - intros d Hd Hu. rewrite (manualSave_dirty d s Hd Hu). cbv zeta.
    match goal with |- context [settle ?k true ?s1] =>
      assert (Hsaved : hasUnsavedChanges (settle k true s1) = false)
    end.
    { unfold settle; simpl. by rewrite lookup_app_r, Nat.sub_diag. }
    split_and!; try done. by apply manualSave_clean.
Qed.


(** ** Note switch *)

Lemma elapse_loading_done ms s t :
  t ∈ timers s -> callback t = LoadingDone -> due t <= now s + ms ->
  isLoadingNoteRef (elapse ms s) = false.
Proof.
  intros Hin Hcb Hdue. unfold elapse; simpl.
  apply (foldl_fire_loading_done _ _ t); [|done].
  by apply list_elem_of_filter.
Qed.

(** C7. Whatever state the session is in, right after a render that
    changes the active note there are no unsaved changes and no
    last-saved time; the loading flag is up and the new note is the
    active one. *)
Theorem switch_resets_session n s s' :
  rerender n s = Rendered s' -> id n <> id (note s) ->
  hasUnsavedChanges s' = false /\
  lastSaved s' = None /\
  isLoadingNoteRef s' = true /\
  note s' = n.
Proof.
  intros [_ ->]%rerender_Rendered Hid.
  destruct (commit_switch n s Hid) as (?&?&?&_).
  by destruct (commit_frame n s) as (?&_).
Qed.

(** C6. While [isLoadingNoteRef] is up, a content-change notification
    changes the document and nothing else: no timer, no dirty flag, no
    call. The render of a note switch raises the flag, and 100 ms later
    it is down. Loading a note and then leaving the editor alone issues
    no persistence call, after a switch (with no debounce timer pending)
    and after the mount. *)
Theorem loading_guard_blocks_scheduler d n s :
  (isLoadingNoteRef s = true ->
     transact d s = match editor s with
                    | Some _ => set_editor (Some d) s
                    | None => s
                    end) /\
  (forall s', rerender n s = Rendered s' -> id n <> id (note s) ->
     isLoadingNoteRef s' = true /\
     forall ms, 100 <= ms -> isLoadingNoteRef (elapse ms s') = false) /\
  (forall s', rerender n s = Rendered s' -> saveTimers s = [] ->
     forall evs, Forall idle evs ->
       observe calls (run s' evs) = Some (calls s)) /\
  (forall s0, mount n = Rendered s0 ->
     forall evs, Forall idle evs -> observe calls (run s0 evs) = Some []).
Proof.
  split_and!.
  - apply transact_guarded.
  - intros s' [_ ->]%rerender_Rendered Hid.
    destruct (commit_switch n s Hid) as (_&_&Hg&Ht).
    destruct (commit_frame n s) as (_&_&_&_&_&Hn&_).
    split; [done|]. intros ms Hms.
    apply (elapse_loading_done _ _
             (mkTimer (nextHandle s) (now s + 100) LoadingDone)).
    + rewrite Ht. apply elem_of_insertTimer. by left.
    + done.
    + rewrite Hn. simpl. lia.
  - intros s' [_ ->]%rerender_Rendered Hs evs Hevs.
    destruct (commit_frame n s) as (_&Hc&_&_&_&_&Ht).
    rewrite idle_run_calls; [by rewrite Hc|by rewrite Ht|done].
  - intros s0 Hm evs Hevs. destruct (mount_fresh n s0 Hm) as (Hc&Hs&_).
    rewrite idle_run_calls; [by rewrite Hc|done..].
Qed.

(** ** Unparsable documents *)

(** A render handed a note whose content is not empty and does not parse
    throws, on a switch as on the mount, before the note-switch effect
    can run. *)
Lemma rerender_unparsable_throws n s :
  content_json n <> EmptyString ->
  JSON_parse (content_json n) = None ->
  rerender n s = Threw.
Proof.
  intros Hne Hparse. unfold rerender, initialDoc.
  by rewrite decide_False, Hparse.
Qed.

(** So the [catch] of the note-switch effect is never entered: a render
    that completes logs nothing. *)
Lemma rerender_console n s s' :
  rerender n s = Rendered s' -> console s' = console s.
Proof.
  intros [Hdoc ->]%rerender_Rendered. unfold commit.
  case_decide; [done|].
  unfold noteEffect, setTimeout, loadContent; simpl.
  destruct (editor s) as [d|] eqn:Hd; [|done]. simpl.
  case_decide; [done|]. case_decide; [done|].
  unfold initialDoc in Hdoc. rewrite decide_False in Hdoc by done.
  destruct (JSON_parse (content_json n)) as [parsed|];
    [|by destruct Hdoc].
  rewrite transact_guarded by done. simpl. by rewrite Hd.
Qed.

(** C5, on the path that misses the fallback. For every note whose
    serialised document is not empty and does not parse, the first
    render of the editor throws: [useEditor] is handed
    [JSON.parse(note.content_json)] outside any [try]. *)
Theorem mount_unparsable_throws n :
  content_json n <> EmptyString ->
  JSON_parse (content_json n) = None ->
  mount n = Threw.
Proof.
  intros Hne Hparse. unfold mount, initialDoc.
  by rewrite decide_False, Hparse.
Qed.

(** ** Edits made while the loading flag is up *)

Lemma forget_fire s t : forget (fire s t) = fire (forget s) t.
Proof. unfold fire, runCallback. by destruct (callback t). Qed.

Lemma forget_foldl_fire q s :
  forget (foldl fire s q) = foldl fire (forget s) q.
Proof.
  revert s. induction q as [|t q IH]; intros s; simpl; [done|].
  by rewrite IH, forget_fire.
Qed.

Lemma forget_elapse ms s : forget (elapse ms s) = elapse ms (forget s).
Proof.
  unfold elapse.
  change (forget (set_now (now s + ms) ?x))
    with (set_now (now s + ms) (forget x)).
  by rewrite forget_foldl_fire.
Qed.

Lemma forget_settle k ok s :
  forget (settle k ok s) = forget (settle k ok (forget s)).
Proof.
  unfold settle; simpl. destruct (inflight s !! k); [|done].
  by destruct ok.
Qed.

Lemma forget_unmount s : forget (unmount s) = unmount (forget s).
Proof.
  unfold unmount, clearSaveTimeout; simpl.
  by destruct (saveTimeoutRef s).
Qed.

Lemma forget_commit n s :
  forget (commit n s) = forget (commit n (forget s)).
Proof.
  unfold commit; simpl. case_decide; [done|].
  destruct (noteEffect_shape (set_note n s)) as (e & c & ->).
  by destruct (noteEffect_shape (set_note n (forget s))) as (e' & c' & ->).
Qed.

Lemma commit_clean n s :
  hasUnsavedChanges s = false -> hasUnsavedChanges (commit n s) = false.
Proof.
  intros Hu. unfold commit. case_decide; [done|].
  by destruct (noteEffect_shape (set_note n s)) as (e & c & ->).
Qed.

Lemma settle_clean k ok s :
  hasUnsavedChanges s = false -> hasUnsavedChanges (settle k ok s) = false.
Proof.
  intros Hu. unfold settle. destruct (inflight s !! k); [|done].
  by destruct ok.
Qed.

(** Two states that differ only in the document and the console, with
    nothing to save, stay so under every event that is not an edit; and
    a render throws from the one when it throws from the other. *)
Lemma step_forget s1 s2 e :
  forget s1 = forget s2 -> hasUnsavedChanges s1 = false -> notEdit e ->
  match step s1 e, step s2 e with
  | Rendered s1', Rendered s2' =>
      forget s1' = forget s2' /\ hasUnsavedChanges s1' = false
  | Threw, Threw => True
  | _, _ => False
  end.
Proof.
  intros Heq Hu1 He.
  assert (Hu2 : hasUnsavedChanges s2 = false).
  { apply (f_equal hasUnsavedChanges) in Heq. simpl in Heq. congruence. }
  destruct e as [d|n| |ms|k ok|]; cbn [step]; [done|..].
  - unfold rerender. destruct (initialDoc n); [|done].
    split; [|by apply commit_clean].
    by rewrite forget_commit, Heq, <- forget_commit.
  - by rewrite !manualSave_clean.
  - split; [by rewrite !forget_elapse, Heq|].
    by destruct (elapse_frame ms s1) as (_&_&_&->&_).
  - split; [|by apply settle_clean].
    by rewrite forget_settle, Heq, <- forget_settle.
  - split; [by rewrite !forget_unmount, Heq|].
    unfold unmount. by destruct (clearSaveTimeout_frame s1) as (q & ->).
Qed.

Lemma run_forget evs s1 s2 :
  forget s1 = forget s2 -> hasUnsavedChanges s1 = false ->
  Forall notEdit evs ->
  observe forget (run s1 evs) = observe forget (run s2 evs).
Proof.
  intros Heq Hu Hevs. revert s1 s2 Heq Hu.
  induction Hevs as [|e evs He _ IH]; intros s1 s2 Heq Hu;
    [by simpl; rewrite Heq|].
  pose proof (step_forget s1 s2 e Heq Hu He) as Hstep. cbn [run].
  destruct (step s1 e) as [s1'|], (step s2 e) as [s2'|]; try done.
  destruct Hstep as [Heq' Hu']. by apply IH.
Qed.

Lemma observe_forget_calls o1 o2 :
  observe forget o1 = observe forget o2 ->
  observe calls o1 = observe calls o2.
Proof.
  destruct o1 as [s1|], o2 as [s2|]; try done.
  intros Heq. exact (f_equal (fmap (M:=option) calls) Heq).
Qed.

(** C10. A content change that arrives while the loading flag is up, a
    genuine user edit included, only changes the document: the dirty
    flag stays down, no timer is set, no call is made. From then on, as
    long as no further content change is notified, the persistence
    calls are those that would have been made had the edit never
    happened, whatever else occurs (time, completions, manual saves,
    renders): the edit reaches the repository only through a later
    notification. *)
Theorem guarded_edit_dropped d s :
  Inv s -> isLoadingNoteRef s = true ->
  let s' := transact d s in
  hasUnsavedChanges s' = false /\
  timers s' = timers s /\
  saveTimeoutRef s' = saveTimeoutRef s /\
  calls s' = calls s /\
  forall evs, Forall notEdit evs ->
    observe calls (run s' evs) = observe calls (run s evs).
Proof.
  intros [_ _ Hguard] Hg s'. specialize (Hguard Hg).
  assert (Hs' : forget s' = forget s /\ hasUnsavedChanges s' = false /\
                timers s' = timers s /\
                saveTimeoutRef s' = saveTimeoutRef s /\
                calls s' = calls s).
  { subst s'. rewrite transact_guarded by done. by destruct (editor s). }
  destruct Hs' as (Hf & Hu & Ht & Hr & Hc). split_and!; try done.
  intros evs Hevs.
  by apply observe_forget_calls, run_forget.
Qed.

End NoteEditorProperties.

(** * The properties at work on concrete runs *)

Section Scenarios.

Import UseNotes NoteEditor SampleEngine Scenario.

Local Open Scope string_scope.
Local Open Scope N_scope.

(** The states of [Scenario] are states of actual runs. *)
Example ready_reached : afterMount noteA [Elapse 100] = Some ready.
Proof. reflexivity. Qed.

Example dirty_reached :
  afterMount noteA [Elapse 100; UserEdit "[1]"] = Some dirty.
Proof. reflexivity. Qed.

Example loadingB_reached :
  afterMount noteA [Elapse 100; Rerender noteB] = Some loadingB.
Proof. reflexivity. Qed.

Example switchRun_calls :
  calls <$> afterMount noteA switchRun
    = Some [mkCall 1 (contentUpdate "[1]")] /\
  (fun s => captured s switchRun) <$> afterMount noteA []
    = Some [mkCall 1 (contentUpdate "[1]")].
Proof. split; reflexivity. Qed.

Example saving_reached :
  afterMount noteA [Elapse 100; UserEdit "[1]"; Elapse 2000] = Some saving.
Proof. reflexivity. Qed.

Local Ltac concrete_Inv :=
  split; vm_compute; [repeat constructor | lia | congruence].

(** *** Optimistic cache *)

(** [mutate(id=5, {title: "X"})] followed by a failure. *)
Example mutate_title_X :
  cachedNote 1 5 (onMutate 1 5 titleX cache1).2 = Some (mkNote 5 1 "X" "{}").
Proof. reflexivity. Qed.

Lemma rollback_restores_snapshot_witness :
  onError 1 (Some (onMutate 1 5 titleX cache1).1)
    (onMutate 1 5 titleX cache1).2 = cache1 /\
  cachedNote 1 5
    (onError 1 (Some (onMutate 1 5 titleX cache1).1)
       (onMutate 1 5 titleX cache1).2) = Some note5 /\
  getQueryData 1 (onError 1 (Some (onMutate 1 5 titleX cache1).1) ∅)
    = Some (mkNoteList [noteA; note5] 2 (Some 1%Z)).
Proof.
  pose proof (rollback_restores_snapshot 1 5 titleX cache1)
    as (_ & Hback & Hnote & Hlater).
  split_and!; [exact Hback | exact Hnote |].
  apply Hlater. reflexivity.
Defined.

Lemma mutate_frame_witness :
  entryAt 1 0 (onMutate 1 5 titleX cache1).2 = Some noteA /\
  (onMutate 2 5 titleX cache1).2 = cache1 /\
  (onMutate 1 7 titleX cache1).2 = cache1.
Proof.
  pose proof (mutate_frame 1 5 titleX cache1) as (Hother & _).
  pose proof (mutate_frame 2 5 titleX cache1) as (_ & _ & _ & Hnone & _).
  pose proof (mutate_frame 1 7 titleX cache1) as (_ & _ & _ & _ & Hmiss).
  split_and!.
  - apply (Hother 0%nat noteA); [reflexivity | vm_compute; congruence].
  - apply Hnone. reflexivity.
  - apply (Hmiss (mkNoteList [noteA; note5] 2 (Some 1%Z))); [reflexivity|].
    repeat constructor; vm_compute; congruence.
Defined.

(** *** Debouncing *)

Lemma debounce_single_call_witness :
  observe calls
    (run ready
       (burstEvents [("[1]", 500); ("[1,2]", 1999)]
        ++ [UserEdit "[1,2,3]"; Elapse 2000]))
    = Some [mkCall 1 (contentUpdate "[1,2,3]")].
Proof.
  destruct (debounce_single_call ready
              [("[1]", 500); ("[1,2]", 1999)] "[1,2,3]" 2000)
    as (s' & Hrun & Hc & _).
  - concrete_Inv.
  - reflexivity.
  - eexists; reflexivity.
  - repeat (constructor; [simpl; lia|]). constructor.
  - lia.
  - rewrite Hrun. exact (f_equal Some Hc).
Defined.

(** *** Note switch *)



Lemma switch_resets_session_witness :
  hasUnsavedChanges dirty = true /\
  observe hasUnsavedChanges (rerender noteB dirty) = Some false /\
  observe lastSaved (rerender noteB dirty) = Some None.
Proof.
  split; [reflexivity|].
  destruct (switch_resets_session noteB dirty (commit noteB dirty))
    as (Hu & Hl & _); [reflexivity | vm_compute; congruence |].
  split; [exact (f_equal Some Hu) | exact (f_equal Some Hl)].
Defined.

(** *** Manual save *)

(** C3, refuted as stated. With the debounce timer pending, a manual
    save leaves the timer queued: it fires 2000 ms after the edit and
    sends the same content a second time. And a second manual save made
    before the first call has completed sends it again as well. *)
Lemma manualSave_does_not_cancel_timer :
  hasUnsavedChanges dirty = true /\
  saveTimers dirty = [mkTimer 2 2100 (SaveCallback 1 "[1]")] /\
  saveTimers (manualSave dirty) = saveTimers dirty /\
  observe calls (run dirty [ManualSave; Settle 0 true; Elapse 2000])
    = Some [mkCall 1 (contentUpdate "[1]");
            mkCall 1 (contentUpdate "[1]")] /\
  observe calls (run dirty [ManualSave; ManualSave])
    = Some [mkCall 1 (contentUpdate "[1]");
            mkCall 1 (contentUpdate "[1]")].
Proof. split_and!; reflexivity. Qed.

Lemma manualSave_immediate_witness :
  manualSave ready = ready /\
  calls (manualSave dirty) = [mkCall 1 (contentUpdate "[1]")] /\
  timers (manualSave dirty) = timers dirty /\
  observe calls (run dirty [ManualSave; Settle 0 true; ManualSave])
    = Some [mkCall 1 (contentUpdate "[1]")].
Proof.
  pose proof (manualSave_immediate ready) as (Hclean & _).
  pose proof (manualSave_immediate dirty) as (_ & _ & Hdirty).
  destruct (Hdirty "[1]") as (Hc & _ & _ & Ht & _ & _ & Hagain);
    [reflexivity..|].
  split_and!.
  - apply Hclean. reflexivity.
  - exact Hc.
  - exact Ht.
  - exact (f_equal (fun s => Some (calls s)) Hagain).
Defined.

(** *** Failure of a persistence call *)



(** *** Unparsable documents *)

Lemma mount_unparsable_throws_witness : mount brokenNote = Threw.
Proof.
  apply mount_unparsable_throws; [vm_compute; congruence | reflexivity].
Defined.

(** The same note reached by a switch: the render throws as well, and
    the effect with its [catch] is not reached. *)
Example switch_to_brokenNote :
  rerender brokenNote dirty = Threw /\
  run dirty [Rerender brokenNote; Elapse 2000] = Threw.
Proof. split; reflexivity. Qed.

(** An empty string is not JSON either, but it is falsy: the first render
    starts from the empty document, while a switch to such a note leaves
    the previous note's document in the editor. *)
Example blankNote_loaded :
  editor <$> afterMount blankNote [] = Some (Some emptyDoc) /\
  observe editor (rerender blankNote dirty) = Some (editor dirty).
Proof. split; reflexivity. Qed.

(** *** The loading guard *)

Lemma loading_guard_blocks_scheduler_witness :
  transact "[7]" loadingB = set_editor (Some "[7]") loadingB /\
  observe isLoadingNoteRef (rerender noteB ready) = Some true /\
  observe isLoadingNoteRef (run ready [Rerender noteB; Elapse 100])
    = Some false /\
  observe calls (run ready [Rerender noteB; Elapse 50; Elapse 5000])
    = Some [] /\
  (forall s0, mount noteA = Rendered s0 ->
     observe calls (run s0 [Elapse 5000]) = Some []).
Proof.
  pose proof (loading_guard_blocks_scheduler "[7]" noteB loadingB)
    as (Hdrop & _).
  pose proof (loading_guard_blocks_scheduler "[7]" noteB ready)
    as (_ & Hflag & Hload & _).
  pose proof (loading_guard_blocks_scheduler "[7]" noteA ready)
    as (_ & _ & _ & Hmount).
  destruct (Hflag (commit noteB ready)) as (Hup & Hdown);
    [reflexivity | vm_compute; congruence |].
  split_and!.
  - apply Hdrop. reflexivity.
  - exact (f_equal Some Hup).
  - exact (f_equal Some (Hdown 100 ltac:(lia))).
  - refine (Hload (commit noteB ready) eq_refl eq_refl
              [Elapse 50; Elapse 5000] _).
    repeat constructor.
  - intros s0 Hs0. apply (Hmount s0 Hs0). repeat constructor.
Defined.

Lemma guarded_edit_dropped_witness :
  hasUnsavedChanges (transact "[7]" loadingB) = false /\
  timers (transact "[7]" loadingB) = timers loadingB /\
  observe calls
    (run (transact "[7]" loadingB) [Elapse 100; ManualSave; Elapse 5000])
    = observe calls (run loadingB [Elapse 100; ManualSave; Elapse 5000]).
Proof.
  destruct (guarded_edit_dropped (H:=engine) "[7]" loadingB)
    as (Hu & Ht & _ & _ & Hruns); [concrete_Inv | reflexivity |].
  split_and!; [exact Hu | exact Ht |].
  apply Hruns. repeat constructor.
Defined.

(** The edit typed within the guard window is not saved even by a
    manual save made after the window. *)
Example guarded_edit_then_manualSave :
  observe calls
    (run loadingB [UserEdit "[7]"; Elapse 100; ManualSave; Elapse 5000])
    = Some [].
Proof. reflexivity. Qed.

End Scenarios.

(** * How optimistic updates compose (hooks/useNotes.ts) *)

Section UseNotesComposition.

Import UseNotes.

Implicit Types (qc : gmap Z NoteList) (data : NoteUpdate) (old : NoteList).

Lemma spread_id note data : id (spread note data) = id note.
Proof. done. Qed.

Lemma spread_spread note d1 d2 :
  spread (spread note d1) d2 = spread note (overlay d1 d2).
Proof.
  destruct d1 as [[t1|] [c1|]], d2 as [[t2|] [c2|]]; reflexivity.
Qed.

Lemma spread_twice note data : spread (spread note data) data = spread note data.
Proof.
  unfold spread; simpl. by destruct (upd_title data), (upd_content_json data).
Qed.

Lemma rewriteNotes_ext noteId data old (f : Note -> Note) :
  (forall note, f note = if decide (id note = noteId)
                         then spread note data else note) ->
  rewriteNotes noteId data old
    = mkNoteList (f <$> notes old) (total old) (list_subject_id old).
Proof.
  intros Hf. unfold rewriteNotes. f_equal.
  apply list_fmap_ext. intros _ note _. by rewrite Hf.
Qed.

Lemma rewriteNotes_twice noteId data old :
  rewriteNotes noteId data (rewriteNotes noteId data old)
    = rewriteNotes noteId data old.
Proof.
  unfold rewriteNotes; simpl. f_equal. rewrite <- list_fmap_compose.
  apply list_fmap_ext. intros _ note _. simpl.
  destruct (decide (id note = noteId)) as [Heq|Hne].
  - rewrite decide_True by done. apply spread_twice.
  - by rewrite decide_False.
Qed.

Lemma rewriteNotes_same_note noteId d1 d2 old :
  rewriteNotes noteId d2 (rewriteNotes noteId d1 old)
    = rewriteNotes noteId (overlay d1 d2) old.
Proof.
  unfold rewriteNotes; simpl. f_equal. rewrite <- list_fmap_compose.
  apply list_fmap_ext. intros _ note _. simpl.
  destruct (decide (id note = noteId)) as [Heq|Hne].
  - rewrite decide_True by done. apply spread_spread.
  - by rewrite decide_False.
Qed.

Lemma rewriteNotes_comm id1 d1 id2 d2 old :
  id1 <> id2 ->
  rewriteNotes id2 d2 (rewriteNotes id1 d1 old)
    = rewriteNotes id1 d1 (rewriteNotes id2 d2 old).
Proof.
  intros Hne. unfold rewriteNotes; simpl. f_equal.
  rewrite <- !list_fmap_compose.
  apply list_fmap_ext. intros _ note _. simpl.
  destruct (decide (id note = id1)) as [H1|H1].
  - assert (H2 : id note <> id2) by congruence.
    rewrite (decide_False (P := id note = id2)) by done.
    rewrite (decide_False (P := id (spread note d1) = id2)) by done.
    by rewrite decide_True.
  - destruct (decide (id note = id2)) as [H2|H2].
    + by rewrite (decide_False (P := id (spread note d2) = id1)).
    + by rewrite decide_False.
Qed.

(** Two optimistic updates in a row on the list of one subject. *)
Lemma onMutate_onMutate subjectId id1 d1 id2 d2 qc :
  (onMutate subjectId id2 d2 (onMutate subjectId id1 d1 qc).2).2 =
    match qc !! subjectId with
    | Some old =>
        <[subjectId := rewriteNotes id2 d2 (rewriteNotes id1 d1 old)]> qc
    | None => qc
    end.
Proof.
  rewrite !onMutate_cache.
  destruct (qc !! subjectId) as [old|] eqn:Hold.
  - by rewrite lookup_insert_eq, insert_insert_eq.
  - by rewrite Hold.
Qed.

Lemma onError_onMutate subjectId noteId data qc :
  onError subjectId (Some (onMutate subjectId noteId data qc).1)
    (onMutate subjectId noteId data qc).2 = qc.
Proof.
  rewrite onMutate_cache.
  unfold onError, onMutate, getQueryData, setQueryData; simpl.
  destruct (qc !! subjectId) as [old|] eqn:Hold; [|done].
  rewrite insert_insert_eq. by apply insert_id.
Qed.

(** X1. What the optimistic update writes: the cached entry of the note
    receives the fields present in the partial update and keeps the
    others, at every position where the id matches; the ids of the
    cached list and their order are untouched. *)
Theorem mutate_rewrites_entry subjectId noteId data qc :
  let mutated := (onMutate subjectId noteId data qc).2 in
  cachedNote subjectId noteId mutated
    = (fun note => spread note data) <$> cachedNote subjectId noteId qc /\
  (forall i note, entryAt subjectId i qc = Some note -> id note = noteId ->
     entryAt subjectId i mutated = Some (spread note data)) /\
  cachedIds subjectId mutated = cachedIds subjectId qc.
Proof.
  intros mutated. subst mutated. rewrite onMutate_cache.
  unfold cachedNote, entryAt, cachedIds, getQueryData.
  destruct (qc !! subjectId) as [old|] eqn:Hold; [|by rewrite Hold].
  rewrite lookup_insert_eq. split_and!.
  - change (list_find (fun note => id note = noteId)
              (notes (rewriteNotes noteId data old)) ≫= (fun p => Some p.2)
            = (fun note => spread note data)
                <$> (list_find (fun note => id note = noteId) (notes old)
                       ≫= fun p => Some p.2)).
    unfold rewriteNotes; simpl. rewrite list_find_fmap.
    rewrite (list_find_ext _ (fun note => id note = noteId)).
    + destruct (list_find _ (notes old)) as [[i note]|] eqn:Hfind; [|done].
      apply list_find_Some in Hfind as (_ & Hid & _). simpl.
      by rewrite decide_True.
    + intros note. simpl. by destruct (decide (id note = noteId)).
  - intros i note Hi Hid.
    change (notes (rewriteNotes noteId data old) !! i
            = Some (spread note data)).
    change (notes old !! i = Some note) in Hi.
    rewrite rewriteNotes_lookup, Hi; simpl. by rewrite decide_True.
  - change (id <$> notes (rewriteNotes noteId data old) = id <$> notes old).
    unfold rewriteNotes; simpl. rewrite <- list_fmap_compose.
    apply list_fmap_ext. intros _ note _. simpl.
    by destruct (decide (id note = noteId)).
Qed.

(** X2. The optimistic update is idempotent: applying the same partial
    update to the same note a second time leaves the cache as the first
    application left it. *)
Theorem mutate_idempotent subjectId noteId data qc :
  (onMutate subjectId noteId data (onMutate subjectId noteId data qc).2).2
    = (onMutate subjectId noteId data qc).2.
Proof.
  rewrite onMutate_onMutate, onMutate_cache.
  destruct (qc !! subjectId); [|done]. by rewrite rewriteNotes_twice.
Qed.

(** X3. Optimistic updates of two different notes commute: the cache
    does not depend on the order in which they were applied. *)
Theorem mutate_commute subjectId id1 d1 id2 d2 qc :
  id1 <> id2 ->
  (onMutate subjectId id2 d2 (onMutate subjectId id1 d1 qc).2).2
    = (onMutate subjectId id1 d1 (onMutate subjectId id2 d2 qc).2).2.
Proof.
  intros Hne. rewrite !onMutate_onMutate.
  destruct (qc !! subjectId); [|done]. by rewrite rewriteNotes_comm.
Qed.

(** X4. Two optimistic updates of the same note amount to one update
    with the two partials overlaid, the later one winning field by
    field: a rename followed by an auto-save of the content leaves both
    the new title and the new content in the cache. *)
Theorem mutate_same_note subjectId noteId d1 d2 qc :
  (onMutate subjectId noteId d2 (onMutate subjectId noteId d1 qc).2).2
    = (onMutate subjectId noteId (overlay d1 d2) qc).2.
Proof.
  rewrite onMutate_onMutate, onMutate_cache.
  destruct (qc !! subjectId); [|done]. by rewrite rewriteNotes_same_note.
Qed.

(** X5. The rollback reinstalls the whole list of the subject. When two
    updates overlap and the first one fails, its [onError] puts the cache
    back as it was before both: the optimistic change of the second
    update is undone as well, whichever note it was for. Rolling back the
    second one instead gives the cache as the first had left it. *)
Theorem rollback_undoes_later_mutation subjectId id1 d1 id2 d2 qc :
  let first := onMutate subjectId id1 d1 qc in
  let second := onMutate subjectId id2 d2 first.2 in
  onError subjectId (Some first.1) second.2 = qc /\
  onError subjectId (Some second.1) second.2 = first.2.
Proof.
  intros first second. subst first second. split.
  - rewrite onMutate_onMutate.
    unfold onError, onMutate, getQueryData, setQueryData; simpl.
    destruct (qc !! subjectId) as [old|] eqn:Hold; [|done].
    rewrite insert_insert_eq. by apply insert_id.
  - apply onError_onMutate.
Qed.

End UseNotesComposition.


(** * More on the auto-save state machine (NoteEditor) *)

Section NoteEditorMore.

Import NoteEditor.

Context `{DocEngine}.

Local Open Scope N_scope.

Implicit Types (s : State) (t : Timer) (q : list Timer) (d : Doc)
  (n : Note) (e : Event) (evs : list Event).

(** ** States of actual runs *)

Lemma afterMount_Some n evs s :
  afterMount n evs = Some s <->
  exists s0, mount n = Rendered s0 /\ run s0 evs = Rendered s.
Proof.
  unfold afterMount. destruct (mount n) as [s0|]; split.
  - intros Hrun. exists s0. split; [done|].
    destruct (run s0 evs); [|done]. by injection Hrun as ->.
  - intros (s1 & [= <-] & ->). done.
  - done.
  - by intros (s1 & ? & _).
Qed.

(** Induction over the states of runs that start with the mount. *)
Lemma afterMount_ind (P : State -> Prop) :
  (forall n s0, mount n = Rendered s0 -> P s0) ->
  (forall s e s', P s -> step s e = Rendered s' -> P s') ->
  forall n evs s, afterMount n evs = Some s -> P s.
Proof.
  intros Hmount Hstep n evs s Hs.
  apply afterMount_Some in Hs as (s0 & Hs0 & Hrun).
  apply (run_ind P Hstep evs s0 s); [by eapply Hmount|done].
Qed.

Lemma afterMount_Inv n evs s : afterMount n evs = Some s -> Inv s.
Proof.
  apply (afterMount_ind Inv); [apply mount_Inv|].
  intros s' e s''. apply step_Inv.
Qed.

(** ** The status line and the Save button *)

(** X6. In every state the status line shows exactly one of its four
    texts: the four conditions of the JSX are exhaustive and exclude one
    another. *)
Theorem statusLine_exactly_one s : exists text, statusLine s = [text].
Proof.
  unfold statusLine, shown.
  destruct (isSaving s), (lastSaved s), (hasUnsavedChanges s); simpl;
    by eexists.
Qed.

(** X7. A click on the Save button with unsaved changes issues the call
    for the current document and disables the button, so that a second
    click does nothing: through the button a double submission is not
    possible. *)
Theorem clickSave_once d s :
  clickSave (clickSave s) = clickSave s /\
  (editor s = Some d -> saveButtonDisabled s = false ->
     calls (clickSave s) = calls s ++ [saveOf d s] /\
     saveButtonDisabled (clickSave s) = true).
Proof.
  unfold clickSave, saveButtonDisabled. split.
  - destruct (editor s) as [d0|] eqn:Hd; [|by rewrite Hd].
    destruct (isSaving s) eqn:Hs; simpl; [by rewrite Hd, Hs|].
    destruct (hasUnsavedChanges s) eqn:Hu; simpl;
      [|by rewrite Hd, Hs, Hu].
    rewrite (manualSave_dirty d0 s Hd Hu). simpl. by rewrite Hd.
  - intros Hd Hen. rewrite Hd, Hen.
    apply orb_false_iff in Hen as [Hs Hu].
    apply negb_false_iff in Hu.
    by rewrite (manualSave_dirty d s Hd Hu).
Qed.

(** X8. The keyboard shortcut is not gated by [isSaving]: pressing
    Ctrl+S (or Cmd+S) twice while the first call is still pending sends
    the document twice, although the Save button is disabled after the
    first press. A key other than a lower-case [s], or no modifier,
    leaves everything alone. *)
Theorem shortcut_not_gated (k : KeyboardEvent) d s :
  ((ctrlKey k || metaKey k) = false \/ key k <> "s"%string ->
     handleKeyDown k s = (false, s)) /\
  ((ctrlKey k || metaKey k) = true -> key k = "s"%string ->
   editor s = Some d -> hasUnsavedChanges s = true ->
     let once := (handleKeyDown k s).2 in
     let twice := (handleKeyDown k once).2 in
     saveButtonDisabled once = true /\
     calls twice = calls s ++ [saveOf d s; saveOf d s]).
Proof.
  unfold handleKeyDown. split.
  - intros [Hmod|Hkey]; [by rewrite Hmod|].
    rewrite (bool_decide_eq_false_2 _ Hkey). by rewrite andb_false_r.
  - intros Hmod Hkey Hd Hu.
    rewrite Hmod, (bool_decide_eq_true_2 _ Hkey); simpl.
    rewrite (manualSave_dirty d s Hd Hu). split; [done|].
    rewrite (manualSave_dirty d); [|done..]. simpl.
    by rewrite <- app_assoc.
Qed.

(** X9. A successful completion always leaves the status line on
    "Saved at", stamped with the time of the completion, even when a
    newer edit is still waiting for its debounce timer, which is left
    untouched. It does so for whatever note is active by then: when the
    save of the previous note completes after the render of a switch,
    the session of the new note is the one shown as saved. *)
Theorem success_shows_saved k n s :
  is_Some (inflight s !! k) ->
  statusLine (settle k true s) = [SavedAtText (now s)] /\
  hasUnsavedChanges (settle k true s) = false /\
  timers (settle k true s) = timers s /\
  calls (settle k true s) = calls s /\
  (forall s', rerender n s = Rendered s' ->
     statusLine (settle k true s') = [SavedAtText (now s)] /\
     note (settle k true s') = n /\
     calls (settle k true s') = calls s).
Proof.
  intros [o Ho].
  destruct (commit_frame n s) as (Hnote & Hc & Hi & _ & _ & Hn & _).
  split_and!.
  - unfold settle. rewrite Ho. by simpl.
  - unfold settle. by rewrite Ho.
  - unfold settle. by rewrite Ho.
  - unfold settle. by rewrite Ho.
  - intros s' [_ ->]%rerender_Rendered.
    unfold settle. rewrite Hi, Ho. simpl. unfold statusLine, shown. simpl.
    rewrite Hn. by split_and!.
Qed.

(** ** The loading flag in actual runs *)

(** X10. In every state of a run, while the loading flag is up there is
    nothing to save: the Save button is disabled and both the button and
    the shortcut leave the state as it is. *)
Theorem loading_means_clean n evs s :
  afterMount n evs = Some s -> isLoadingNoteRef s = true ->
  hasUnsavedChanges s = false /\
  saveButtonDisabled s = true /\
  clickSave s = s /\ manualSave s = s.
Proof.
  intros Hs Hg. destruct (afterMount_Inv n evs s Hs) as [_ _ Hclean].
  specialize (Hclean Hg). unfold clickSave, saveButtonDisabled.
  rewrite Hclean, orb_true_r, manualSave_clean by done.
  split_and!; try done. by destruct (editor s).
Qed.

(** A timer callback keeps "[isSaving] only with a call pending". *)
Lemma foldl_fire_pending q s :
  (isSaving s = true -> inflight s <> []) ->
  isSaving (foldl fire s q) = true -> inflight (foldl fire s q) <> [].
Proof.
  revert s. induction q as [|t q IH]; intros s Hs; simpl; [done|].
  apply IH. unfold fire, runCallback. destruct (callback t); simpl; [|done].
  intros _ Hnil. by apply app_eq_nil in Hnil as [_ ?].
Qed.

Lemma step_pending s e s' :
  (isSaving s = true -> inflight s <> []) ->
  step s e = Rendered s' ->
  isSaving s' = true -> inflight s' <> [].
Proof.
  intros Hs Hstep. apply step_Rendered in Hstep.
  destruct e as [d|n| |ms|k ok|];
    [subst s'|destruct Hstep as [_ ->]|subst s'..].
  - unfold transact. destruct (editor s); [|done].
    unfold onUpdate; simpl. destruct (isLoadingNoteRef s); [done|].
    by destruct (autoSave_frame (serialize d) (set_editor (Some d) s))
      as (_&_&_&->&_); unfold autoSave, setTimeout;
      destruct (clearSaveTimeout_frame
                  (set_hasUnsavedChanges true (set_editor (Some d) s)))
        as (q & ->).
  - destruct (commit_frame n s) as (_&_&->&->&_). done.
  - unfold manualSave. destruct (editor s); [|done].
    destruct (hasUnsavedChanges s); [|done]. simpl.
    intros _ Hnil. by apply app_eq_nil in Hnil as [_ ?].
  - unfold elapse. simpl. by apply foldl_fire_pending.
  - unfold settle. destruct (inflight s !! k); [|done]. by destruct ok.
  - unfold unmount. by destruct (clearSaveTimeout_frame s) as (q & ->).
Qed.

(** X11. The "Saving..." indicator cannot get stuck: in every state of a
    run, once no call is pending [isSaving] is false, so the status
    line shows one of the other three texts. *)
Theorem saving_needs_pending_call n evs s :
  afterMount n evs = Some s -> inflight s = [] ->
  isSaving s = false /\ statusLine s <> [SavingText].
Proof.
  intros Hs Hnil.
  assert (Hp : isSaving s = true -> inflight s <> []).
  { clear Hnil. revert n evs s Hs.
    apply (afterMount_ind (fun s => isSaving s = true -> inflight s <> [])).
    - intros n s0 Hm. unfold mount in Hm.
      destruct (initialDoc n); [|done]. injection Hm as <-.
      match goal with |- context [noteEffect ?s1] =>
        destruct (noteEffect_shape s1) as (e & c & ->) end.
      done.
    - intros s1 e s2. apply step_pending. }
  assert (Hfalse : isSaving s = false).
  { destruct (isSaving s); [|done]. by destruct Hp. }
  split; [done|]. unfold statusLine, shown. rewrite Hfalse. simpl.
  by destruct (lastSaved s), (hasUnsavedChanges s).
Qed.

(** ** Loading a note *)

(** X12. "Only update if content actually changed": when the stored
    content of the note handed over equals the serialisation of the
    document in the editor, the render leaves the document and the
    console alone, for the same note and for another one. *)
Theorem rerender_same_content n d s :
  editor s = Some d -> serialize d = content_json n ->
  (editor (commit n s) = Some d /\ console (commit n s) = console s) /\
  (forall s', rerender n s = Rendered s' ->
     editor s' = Some d /\ console s' = console s).
Proof.
  intros Hd Hser.
  assert (Hcommit : editor (commit n s) = Some d /\
                    console (commit n s) = console s).
  { unfold commit. case_decide; [done|].
    unfold noteEffect, setTimeout, loadContent; simpl. rewrite Hd.
    case_decide; [done|]. by rewrite decide_True. }
  split; [done|]. by intros s' [_ ->]%rerender_Rendered.
Qed.

(** X13. The timers that lower the loading flag are never cancelled, so
    the one set by an earlier switch also ends the guard of a later
    switch: if such a timer is pending when the note changes, the flag
    is down as soon as that timer is due, however recent the switch. *)
Theorem earlier_timer_ends_guard n t ms s :
  t ∈ timers s -> callback t = LoadingDone -> due t <= now s + ms ->
  isLoadingNoteRef (elapse ms (commit n s)) = false /\
  (forall s', rerender n s = Rendered s' ->
     isLoadingNoteRef (elapse ms s') = false).
Proof.
  intros Hin Hcb Hdue.
  assert (Hcommit : isLoadingNoteRef (elapse ms (commit n s)) = false).
  { destruct (commit_frame n s) as (_&_&_&_&_&Hn&_).
    apply (elapse_loading_done _ _ t); [|done|by rewrite Hn].
    unfold commit. case_decide; [done|].
    destruct (noteEffect_shape (set_note n s)) as (e & c & ->). simpl.
    apply elem_of_insertTimer. by right. }
  split; [done|]. by intros s' [_ ->]%rerender_Rendered.
Qed.

(** ** Counting calls *)

Lemma clearSaveTimeout_shape s :
  exists q, clearSaveTimeout s = set_timers q s /\
    (forall t, t ∈ q -> t ∈ timers s) /\
    (forall t, t ∈ timers s -> saveTimeoutRef s <> Some (handle t) -> t ∈ q) /\
    (length (filter isSave q) <= length (saveTimers s))%nat.
Proof.
  unfold clearSaveTimeout, clearTimeout.
  destruct (saveTimeoutRef s) as [h|] eqn:Hh.
  - eexists. split; [done|]. split_and!.
    + intros t Ht. by apply list_elem_of_filter in Ht as [_ ?].
    + intros t Ht Hne. apply list_elem_of_filter. split; [congruence|done].
    + rewrite filter_comm. apply length_filter.
  - exists (timers s). split; [by destruct s|]. by split_and!.
Qed.

Lemma autoSave_shape content s :
  exists q,
    timers (autoSave content s) = insertTimer (debounceTimer content s) q /\
    nextHandle (autoSave content s) = nextHandle s + 1 /\
    isSaving (autoSave content s) = isSaving s /\
    lastSaved (autoSave content s) = lastSaved s /\
    (forall t, t ∈ q -> t ∈ timers s) /\
    (length (filter isSave q) <= length (saveTimers s))%nat.
Proof.
  unfold autoSave, setTimeout.
  destruct (clearSaveTimeout_shape (set_hasUnsavedChanges true s))
    as (q & -> & Hsub & _ & Hlen).
  exists q. by split_and!.
Qed.

(** Calls made plus debounce timers pending: only an edit or a manual
    save raises the sum, and by one. *)
Lemma step_budget s e s' :
  step s e = Rendered s' ->
  (length (calls s') + length (saveTimers s')
   <= length (calls s) + length (saveTimers s) + userActions [e])%nat.
Proof.
  intros Hstep. apply step_Rendered in Hstep.
  destruct e as [d|n| |ms|k ok|];
    [subst s'|destruct Hstep as [_ ->]|subst s'..].
  - unfold transact. destruct (editor s) as [d0|]; [|lia].
    unfold onUpdate; simpl.
    destruct (isLoadingNoteRef s); [unfold saveTimers; simpl; lia|].
    destruct (autoSave_frame (serialize d) (set_editor (Some d) s))
      as (_&_&->&_).
    destruct (autoSave_shape (serialize d) (set_editor (Some d) s))
      as (q & Ht & _ & _ & _ & _ & Hlen).
    unfold saveTimers at 1. rewrite Ht.
    rewrite insertTimer_perm, filter_cons_True by (by unfold isSave).
    change (saveTimers (set_editor (Some d) s)) with (saveTimers s) in Hlen.
    unfold userActions. simpl. lia.
  - destruct (commit_frame n s) as (_&->&_&_&_&_&->). lia.
  - unfold manualSave. destruct (editor s); [|lia].
    destruct (hasUnsavedChanges s); [|lia]. unfold saveTimers; simpl.
    rewrite length_app. unfold userActions; simpl. lia.
  - rewrite elapse_calls, elapse_saveTimers, length_app.
    rewrite length_omap_callOf.
    + pose proof (length_filter_split
                    (fun t => due t <= now s + ms) (saveTimers s)). lia.
    + apply Forall_filter_weaken, saveTimers_isSave.
  - destruct (settle_calls k ok s) as [-> Ht]. unfold saveTimers.
    rewrite Ht. lia.
  - destruct (unmount_frame s) as [-> _]. unfold unmount.
    destruct (clearSaveTimeout_shape s) as (q & -> & _ & _ & Hlen).
    unfold saveTimers at 1. simpl. lia.
Qed.

Lemma userActions_cons e evs :
  userActions (e :: evs) = (userActions [e] + userActions evs)%nat.
Proof.
  unfold userActions. rewrite !filter_cons, filter_nil.
  by destruct (decide (isUserAction e)).
Qed.

Lemma run_budget evs s s' :
  run s evs = Rendered s' ->
  (length (calls s') + length (saveTimers s')
   <= length (calls s) + length (saveTimers s) + userActions evs)%nat.
Proof.
  revert s. induction evs as [|e evs IH]; intros s Hrun.
  - injection Hrun as <-. unfold userActions; simpl. lia.
  - rewrite userActions_cons.
    apply run_cons_Rendered in Hrun as (s1 & Hs1 & Hrun).
    pose proof (IH s1 Hrun). pose proof (step_budget s e s1 Hs1). lia.
Qed.

(** X14. Debouncing never amplifies: in a run that starts with the
    mount, the number of persistence calls made, together with the
    number of debounce timers still pending, never exceeds the number of
    edits and manual saves of the run. Renders, time and completions
    make no call of their own. *)
Theorem calls_bounded_by_actions n evs s :
  afterMount n evs = Some s ->
  (length (calls s) + length (saveTimers s) <= userActions evs)%nat.
Proof.
  intros Hs. apply afterMount_Some in Hs as (s0 & Hm & Hrun).
  destruct (mount_fresh n s0 Hm) as (Hc & Ht & _).
  pose proof (run_budget evs s0 s Hrun) as Hb. rewrite Hc, Ht in Hb.
  simpl in Hb. lia.
Qed.

(** ** Bookkeeping of the timer queue *)

Lemma Forall_insertTimer (Q : Timer -> Prop) t q :
  Forall Q (insertTimer t q) <-> Q t /\ Forall Q q.
Proof. rewrite insertTimer_perm. apply Forall_cons. Qed.

Lemma Exists_insertTimer (Q : Timer -> Prop) t q :
  Exists Q (insertTimer t q) <-> Q t \/ Exists Q q.
Proof. rewrite insertTimer_perm. apply Exists_cons. Qed.

Lemma Forall_sub (Q : Timer -> Prop) q q' :
  (forall t, t ∈ q' -> t ∈ q) -> Forall Q q -> Forall Q q'.
Proof. rewrite !Forall_forall. auto. Qed.

Lemma autoSave_Sched content s :
  Sched s -> isLoadingNoteRef s = false -> Sched (autoSave content s).
Proof.
  intros [Hfresh Href Hsave _ Hdue] Hg.
  destruct (autoSave_frame content s) as (_&_&_&_&Hnow&Hg'&_&Hr).
  destruct (autoSave_shape content s) as (q & Ht & Hn & _ & _ & Hsub & _).
  split; rewrite ?Ht, ?Hn, ?Hr, ?Hnow, ?Hg'.
  - apply Forall_insertTimer. split; [simpl; lia|].
    apply (Forall_sub _ _ _ Hsub). eapply Forall_impl; [exact Hfresh|].
    simpl. intros; lia.
  - intros h [= <-]. lia.
  - apply Forall_insertTimer. split; [by unfold isSave|].
    apply (Forall_sub _ _ _ Hsub). eapply Forall_impl; [exact Hfresh|].
    simpl. intros t Hlt [= Heq]. lia.
  - by rewrite Hg.
  - apply Forall_insertTimer. split; [simpl; lia|].
    by apply (Forall_sub _ _ _ Hsub).
Qed.

Lemma transact_Sched d s : Sched s -> Sched (transact d s).
Proof.
  intros HS. unfold transact. destruct (editor s); [|done].
  unfold onUpdate; simpl. destruct (isLoadingNoteRef s) eqn:Hg.
  - by destruct HS.
  - apply (autoSave_Sched _ (set_editor (Some d) s)); [|done].
    by destruct HS.
Qed.

Lemma commit_Sched n s : Sched s -> Sched (commit n s).
Proof.
  intros [Hfresh Href Hsave Hload Hdue]. unfold commit.
  case_decide; [done|].
  destruct (noteEffect_shape (set_note n s)) as (e & c & ->).
  split; simpl.
  - apply Forall_insertTimer. split; [simpl; lia|].
    eapply Forall_impl; [exact Hfresh|]. simpl. intros; lia.
  - intros h Hh. specialize (Href h Hh). lia.
  - apply Forall_insertTimer. split; [|done]. simpl.
    intros Hh. specialize (Href _ Hh). lia.
  - intros _. apply Exists_insertTimer. by left.
  - apply Forall_insertTimer. split; [simpl; lia|done].
Qed.

Lemma elapse_Sched ms s : Sched s -> Sched (elapse ms s).
Proof.
  intros [Hfresh Href Hsave Hload Hdue].
  destruct (elapse_frame ms s) as (_&_&_&_&Hr&Hn&_&Hnow).
  split; rewrite ?elapse_timers, ?Hr, ?Hn, ?Hnow.
  - by apply Forall_filter_weaken.
  - done.
  - by apply Forall_filter_weaken.
  - intros Hg.
    destruct (isLoadingNoteRef s) eqn:Hs;
      [|by rewrite elapse_loading_false in Hg].
    apply Exists_exists in Hload as (t & Hin & Hcb); [|done].
    apply Exists_exists. exists t. split; [|done].
    apply list_elem_of_filter. split; [|done]. intros Hready.
    by rewrite (elapse_loading_done ms s t) in Hg.
  - apply Forall_filter_weaken. eapply Forall_impl; [exact Hdue|].
    simpl. intros; lia.
Qed.

Lemma unmount_Sched s : Sched s -> Sched (unmount s).
Proof.
  intros [Hfresh Href Hsave Hload Hdue]. unfold unmount.
  destruct (clearSaveTimeout_shape s) as (q & -> & Hsub & Hkeep & _).
  split; simpl; try done; try by apply (Forall_sub _ _ _ Hsub).
  intros Hg. apply Exists_exists in Hload as (t & Hin & Hcb); [|done].
  apply Exists_exists. exists t. split; [|done]. apply Hkeep; [done|].
  intros Heq. rewrite Forall_forall in Hsave.
  specialize (Hsave t Hin Heq). unfold isSave in Hsave. by rewrite Hcb in Hsave.
Qed.

Lemma step_Sched s e s' : Sched s -> step s e = Rendered s' -> Sched s'.
Proof.
  intros HS Hstep. apply step_Rendered in Hstep.
  destruct e as [d|n| |ms|k ok|];
    [subst s'|destruct Hstep as [_ ->]|subst s'..].
  - by apply transact_Sched.
  - by apply commit_Sched.
  - unfold manualSave. destruct (editor s); [|done].
    destruct (hasUnsavedChanges s); [|done]. by destruct HS.
  - by apply elapse_Sched.
  - unfold settle. destruct (inflight s !! k); [|done].
    destruct HS. by destruct ok.
  - by apply unmount_Sched.
Qed.

Lemma afterMount_Sched n evs s : afterMount n evs = Some s -> Sched s.
Proof.
  apply (afterMount_ind Sched); [|intros s' e s''; apply step_Sched].
  intros n0 s0 Hm. unfold mount in Hm.
  destruct (initialDoc n0) as [d|]; [|done]. injection Hm as <-.
  match goal with |- Sched (noteEffect ?s1) =>
    destruct (noteEffect_shape s1) as (e & c & ->) end.
  split; simpl; try done.
  - by repeat constructor.
  - by repeat constructor.
  - intros _. by repeat constructor.
  - by repeat constructor.
Qed.

Lemma filter_all {A} (P : A -> Prop) `{!forall x, Decision (P x)}
    (l : list A) :
  Forall P l -> filter P l = l.
Proof.
  induction 1 as [|x l Hx _ IH]; [done|]. by rewrite filter_cons_True, IH.
Qed.

(** X15. The loading flag cannot get stuck: in every state of a run,
    whatever happened before, 100 ms without any event bring the flag
    down, so auto-save is never suppressed for longer than that. *)
Theorem loading_flag_never_stuck n evs s ms :
  afterMount n evs = Some s -> 100 <= ms ->
  isLoadingNoteRef (elapse ms s) = false.
Proof.
  intros Hs Hms. destruct (afterMount_Sched n evs s Hs) as [_ _ _ Hload Hdue].
  destruct (isLoadingNoteRef s) eqn:Hg; [|by apply elapse_loading_false].
  apply Exists_exists in Hload as (t & Hin & Hcb); [|done].
  apply (elapse_loading_done ms s t); [done..|].
  rewrite Forall_forall in Hdue. specialize (Hdue t Hin).
  rewrite Hcb in Hdue. simpl in Hdue. lia.
Qed.

(** X16. No debounce timer outlives the quiet period: in every state of
    a run, 2000 ms without any event empty the debounce slot, and the
    calls made meanwhile are exactly those of the timers that were
    pending, of which there is at most one. *)
Theorem quiet_period_flushes n evs s ms :
  afterMount n evs = Some s -> 2000 <= ms ->
  saveTimers (elapse ms s) = [] /\
  calls (elapse ms s) = calls s ++ omap callOf (saveTimers s) /\
  (length (saveTimers s) <= 1)%nat.
Proof.
  intros Hs Hms. destruct (afterMount_Sched n evs s Hs) as [_ _ _ _ Hdue].
  destruct (afterMount_Inv n evs s Hs) as [_ Hone _].
  assert (Hall : Forall (fun t => due t <= now s + ms) (saveTimers s)).
  { unfold saveTimers. apply Forall_forall. intros t Ht.
    apply list_elem_of_filter in Ht as [Hsave Hin].
    rewrite Forall_forall in Hdue. specialize (Hdue t Hin).
    unfold isSave in Hsave. destruct (callback t); [|done].
    simpl in Hdue. lia. }
  split_and!; [| |done].
  - rewrite elapse_saveTimers. apply filter_none.
    eapply Forall_impl; [exact Hall|]. simpl. tauto.
  - rewrite elapse_calls. by rewrite filter_all.
Qed.

(** ** The save cycle *)

Lemma foldl_fire_save t s :
  isSave t ->
  isSaving (fire s t) = true /\
  inflight (fire s t) = inflight s ++ [FromAutoSave] /\
  lastSaved (fire s t) = lastSaved s /\
  hasUnsavedChanges (fire s t) = hasUnsavedChanges s.
Proof. unfold fire, runCallback, isSave. by destruct (callback t). Qed.

Lemma foldl_fire_loading_only q s :
  Forall (fun t => ~ isSave t) q ->
  isSaving (foldl fire s q) = isSaving s /\
  inflight (foldl fire s q) = inflight s.
Proof.
  revert s. induction q as [|t q IH]; intros s Hq; simpl; [done|].
  apply Forall_cons in Hq as [Ht Hq].
  destruct (IH (fire s t) Hq) as [-> ->].
  unfold fire, runCallback, isSave in *. by destruct (callback t).
Qed.

(** Firing a queue that holds one debounce timer. *)
Lemma foldl_fire_one_save q s t :
  filter isSave q = [t] ->
  isSaving (foldl fire s q) = true /\
  inflight (foldl fire s q) = inflight s ++ [FromAutoSave].
Proof.
  revert s. induction q as [|u q IH]; intros s Hq; [done|]. simpl.
  rewrite filter_cons in Hq. destruct (decide (isSave u)) as [Hu|Hu].
  - injection Hq as -> Hq.
    assert (Hrest : Forall (fun t => ~ isSave t) q).
    { apply Forall_forall. intros v Hv Hsv.
      assert (v ∈ filter isSave q) as Hin by by apply list_elem_of_filter.
      rewrite Hq in Hin. by apply elem_of_nil in Hin. }
    destruct (foldl_fire_loading_only q (fire s t) Hrest) as [-> ->].
    by destruct (foldl_fire_save t s Hu) as (?&?&_).
  - destruct (IH (fire s u) Hq) as [-> ->]. split; [done|].
    unfold fire, runCallback, isSave in *. by destruct (callback u).
Qed.

(** X17. The save cycle as the status line shows it. From a state of
    rest with the loading flag down, an edit puts the line on "Unsaved
    changes"; when the quiet period is over it is on "Saving..." with
    one call pending; if that call succeeds the line is on "Saved at"
    with nothing left to save, and if it fails the line is back on
    "Unsaved changes" with the edit still in the editor. *)
Theorem save_cycle d quiet s :
  Inv s -> isLoadingNoteRef s = false -> is_Some (editor s) ->
  isSaving s = false -> inflight s = [] -> 2000 <= quiet ->
  let edited := transact d s in
  let fired := elapse quiet edited in
  statusLine edited = [UnsavedText] /\
  statusLine fired = [SavingText] /\
  calls fired = calls s ++ [saveOf d s] /\
  inflight fired = [FromAutoSave] /\
  statusLine (settle 0 true fired) = [SavedAtText (now s + quiet)] /\
  hasUnsavedChanges (settle 0 true fired) = false /\
  statusLine (settle 0 false fired) = [UnsavedText] /\
  editor (settle 0 false fired) = Some d.
Proof.
  intros HI Hg Hed Hs Hfl Hquiet edited fired.
  destruct (transact_unguarded d s HI Hg Hed)
    as (Hq & Hc & Hn & Hnote & He & Hg' & Hu).
  fold edited in Hq, Hc, Hn, Hnote, He, Hg', Hu.
  assert (Hedited : isSaving edited = false /\ inflight edited = []).
  { subst edited. destruct Hed as [d0 Hd0]. unfold transact, onUpdate.
    rewrite Hd0. simpl. rewrite Hg.
    destruct (autoSave_frame (serialize d) (set_editor (Some d) s))
      as (_&_&_&->&_).
    by destruct (autoSave_shape (serialize d) (set_editor (Some d) s))
      as (_ & _ & _ & -> & _). }
  destruct Hedited as [Hs' Hfl'].
  destruct (edit_then_quiet d quiet s HI Hg Hed Hquiet) as (Hcalls & Hdoc & _).
  fold edited in Hcalls, Hdoc. fold fired in Hcalls, Hdoc.
  destruct (elapse_frame quiet edited) as (_&_&Hls&Hun&_&_&_&Hnow).
  fold fired in Hls, Hun, Hnow.
  assert (Hfired : isSaving fired = true /\ inflight fired = [FromAutoSave]).
  { subst fired. unfold elapse. simpl.
    destruct (foldl_fire_one_save
                (filter (fun t => due t <= now edited + quiet) (timers edited))
                (set_timers
                   (filter (fun t => ~ due t <= now edited + quiet)
                      (timers edited)) edited)
                (debounceTimer (serialize d) s)) as [-> ->].
    - rewrite filter_comm. fold (saveTimers edited). rewrite Hq.
      rewrite filter_cons_True; [done|]. simpl. lia.
    - simpl. by rewrite Hfl'. }
  destruct Hfired as [Hsf Hif]. clearbody fired edited.
  split_and!.
  - unfold statusLine, shown. rewrite Hs', Hu. by destruct (lastSaved edited).
  - unfold statusLine, shown. rewrite Hsf. by destruct (lastSaved fired).
  - done.
  - done.
  - unfold settle. rewrite Hif. simpl. unfold statusLine, shown. simpl.
    by rewrite Hnow, Hn.
  - unfold settle. by rewrite Hif.
  - unfold settle. rewrite Hif. simpl. unfold statusLine, shown. simpl.
    rewrite Hun, Hu. by destruct (lastSaved fired).
  - unfold settle. by rewrite Hif.
Qed.

(** ** A failure that arrives after a switch *)

(** X20. A save of the previous note that fails after the user has
    switched is not retried: with that call pending and no debounce
    timer, after the render of the switch and the failure the dirty
    flag is down, the status line shows "Ready to edit", the button and
    the shortcut do nothing, and no call is made however long the editor
    is left alone. *)
Theorem failed_save_after_switch k n s switched :
  rerender n s = Rendered switched ->
  id n <> id (note s) -> saveTimers s = [] -> is_Some (inflight s !! k) ->
  let s' := settle k false switched in
  hasUnsavedChanges s' = false /\
  statusLine s' = [ReadyText] /\
  manualSave s' = s' /\ clickSave s' = s' /\
  forall evs, Forall idle evs ->
    observe calls (run s' evs) = Some (calls s).
Proof.
  intros [_ ->]%rerender_Rendered Hid Hq [o Ho] s'.
  destruct (commit_switch n s Hid) as (Hu & Hl & _).
  destruct (commit_frame n s) as (_ & Hc & Hi & _ & _ & _ & Ht).
  destruct (settle_failure_frame k (commit n s))
    as (_ & _ & Hu' & Hl' & _ & _ & _ & Ht' & Hc').
  fold s' in Hu', Hl', Ht', Hc'.
  assert (Hs : isSaving s' = false).
  { subst s'. unfold settle. by rewrite Hi, Ho. }
  assert (Hclean : hasUnsavedChanges s' = false) by congruence.
  clearbody s'. split_and!.
  - done.
  - unfold statusLine, shown. rewrite Hs, Hclean, Hl', Hl. reflexivity.
  - by apply manualSave_clean.
  - unfold clickSave, saveButtonDisabled.
    rewrite Hs, Hclean. simpl. by destruct (editor s').
  - intros evs Hevs. rewrite idle_run_calls; [congruence| |done].
    unfold saveTimers in *. by rewrite Ht', Ht.
Qed.

End NoteEditorMore.

(** * The page around the editor (SubjectDetailPage) *)

Section PageProperties.

Import NoteEditor SubjectDetailPage.

Context `{DocEngine}.

Implicit Types (st : PageState) (s : State) (sel : Note).


(** X19. Renaming a note does not disturb the editing session. When
    [handleSaveTitle] goes through, the note handed to the editor has
    the same id and the same content, so the editor's effect does not
    run: timers, dirty flag, document and loading flag stay as they
    are. The request carries the trimmed title and no content, so
    applied to any note it leaves the content alone. *)
Theorem rename_keeps_session (trim : string -> string) st sel s :
  selectedNote st = Some sel -> note s = sel ->
  trim (editedTitle st) <> EmptyString -> editedTitle st <> title sel ->
  let renamed := retitled sel (trim (editedTitle st)) in
  handleSaveTitle trim true st
    = (Some (id sel, titleUpdate (trim (editedTitle st))),
       set_isEditingTitle false (set_selectedNote (Some renamed) st)) /\
  commit renamed s = set_note renamed s /\
  rerender renamed s
    = match initialDoc sel with
      | Some _ => Rendered (set_note renamed s)
      | None => Threw
      end /\
  (forall cached,
     content_json (UseNotes.spread cached (titleUpdate (trim (editedTitle st))))
       = content_json cached).
Proof.
  intros Hsel Hnote Hblank Hdiff renamed.
  assert (Hcommit : commit renamed s = set_note renamed s).
  { unfold commit. rewrite Hnote. by rewrite decide_True. }
  split_and!.
  - unfold handleSaveTitle. rewrite Hsel.
    by rewrite !bool_decide_eq_true_2.
  - done.
  - unfold rerender. change (initialDoc renamed) with (initialDoc sel).
    destruct (initialDoc sel); [|done]. by rewrite Hcommit.
  - done.
Qed.

End PageProperties.

(** * The further properties at work on concrete runs *)

Section MoreScenarios.

Import UseNotes NoteEditor SubjectDetailPage SampleEngine Scenario.

Local Open Scope string_scope.
Local Open Scope N_scope.

Local Ltac concrete_Inv' :=
  split; vm_compute; [repeat constructor | lia | congruence].

Lemma mutate_rewrites_entry_witness :
  entryAt 1 1 (onMutate 1 5 titleX cache1).2 = Some (mkNote 5 1 "X" "{}").
Proof.
  pose proof (mutate_rewrites_entry 1 5 titleX cache1) as (_ & Hentry & _).
  apply (Hentry 1%nat note5); reflexivity.
Defined.

Lemma mutate_commute_witness :
  (onMutate 1 5 titleX (onMutate 1 1 (contentUpdate "[1]") cache1).2).2
    = (onMutate 1 1 (contentUpdate "[1]") (onMutate 1 5 titleX cache1).2).2.
Proof. apply mutate_commute. vm_compute; congruence. Defined.

Lemma clickSave_once_witness :
  calls (clickSave dirty) = [mkCall 1 (contentUpdate "[1]")] /\
  saveButtonDisabled (clickSave dirty) = true.
Proof.
  pose proof (clickSave_once (H:=engine) "[1]" dirty) as (_ & Hclick).
  apply Hclick; reflexivity.
Defined.

Lemma shortcut_not_gated_witness :
  saveButtonDisabled (handleKeyDown ctrlS dirty).2 = true /\
  calls (handleKeyDown ctrlS (handleKeyDown ctrlS dirty).2).2
    = [mkCall 1 (contentUpdate "[1]"); mkCall 1 (contentUpdate "[1]")].
Proof.
  pose proof (shortcut_not_gated (H:=engine) ctrlS "[1]" dirty) as (_ & Hkey).
  apply Hkey; reflexivity.
Defined.

Lemma success_shows_saved_witness :
  statusLine (settle 0 true saving) = [SavedAtText 2100] /\
  observe statusLine (run saving [Rerender noteB; Settle 0 true])
    = Some [SavedAtText 2100] /\
  observe note (run saving [Rerender noteB; Settle 0 true]) = Some noteB.
Proof.
  destruct (success_shows_saved 0 noteB saving)
    as (Hline & _ & _ & _ & Hswitched); [eexists; reflexivity|].
  destruct (Hswitched (commit noteB saving) eq_refl) as (Hother & Hnote & _).
  split_and!;
    [exact Hline | exact (f_equal Some Hother) | exact (f_equal Some Hnote)].
Defined.

Lemma loading_means_clean_witness :
  saveButtonDisabled loadingB = true /\ manualSave loadingB = loadingB.
Proof.
  destruct (loading_means_clean noteA [Elapse 100; Rerender noteB] loadingB)
    as (_ & Hbutton & _ & Hmanual); [reflexivity..|].
  by split.
Defined.

Lemma saving_needs_pending_call_witness : isSaving ready = false.
Proof.
  apply (saving_needs_pending_call noteA [Elapse 100] ready); reflexivity.
Defined.

Lemma rerender_same_content_witness :
  observe editor (rerender noteA' dirty) = Some (Some "[1]") /\
  observe console (rerender noteA' dirty) = Some [].
Proof.
  destruct (rerender_same_content (H:=engine) noteA' "[1]" dirty)
    as (_ & Hrender); [reflexivity..|].
  destruct (Hrender (commit noteA' dirty) eq_refl) as (Hdoc & Hlog).
  split; [exact (f_equal Some Hdoc) | exact (f_equal Some Hlog)].
Defined.

Lemma earlier_timer_ends_guard_witness :
  observe isLoadingNoteRef (run loadingB [Elapse 60; Rerender noteA])
    = Some true /\
  observe isLoadingNoteRef
    (run loadingB [Elapse 60; Rerender noteA; Elapse 40]) = Some false.
Proof.
  split; [reflexivity|].
  destruct (earlier_timer_ends_guard noteA (mkTimer 2 200 LoadingDone) 40
              (elapse 60 loadingB)) as (_ & Hdown).
  - vm_compute. apply list_elem_of_here.
  - reflexivity.
  - vm_compute. congruence.
  - exact (f_equal Some (Hdown (commit noteA (elapse 60 loadingB)) eq_refl)).
Defined.

Lemma calls_bounded_by_actions_witness :
  (length (calls saving) + length (saveTimers saving) <= 1)%nat.
Proof.
  apply (calls_bounded_by_actions (H:=engine) noteA
           [Elapse 100; UserEdit (H:=engine) "[1]"; Elapse 2000] saving).
  reflexivity.
Defined.

Lemma loading_flag_never_stuck_witness :
  isLoadingNoteRef (elapse 100 loadingB) = false.
Proof.
  apply (loading_flag_never_stuck noteA [Elapse 100; Rerender noteB]);
    [reflexivity | lia].
Defined.

Lemma quiet_period_flushes_witness :
  saveTimers (elapse 2000 dirty) = [] /\
  calls (elapse 2000 dirty) = [mkCall 1 (contentUpdate "[1]")].
Proof.
  destruct (quiet_period_flushes (H:=engine) noteA
              [Elapse 100; UserEdit (H:=engine) "[1]"] dirty 2000)
    as (Hempty & Hcalls & _); [reflexivity | lia |].
  by split.
Defined.

Lemma save_cycle_witness :
  statusLine (transact (H:=engine) "[1]" ready) = [UnsavedText] /\
  statusLine (elapse 2000 (transact (H:=engine) "[1]" ready)) = [SavingText] /\
  statusLine (settle 0 true (elapse 2000 (transact (H:=engine) "[1]" ready)))
    = [SavedAtText 2100] /\
  statusLine (settle 0 false (elapse 2000 (transact (H:=engine) "[1]" ready)))
    = [UnsavedText].
Proof.
  destruct (save_cycle (H:=engine) "[1]" 2000 ready)
    as (Hedit & Hfire & _ & _ & Hok & _ & Hfail & _);
    [concrete_Inv' | reflexivity | eexists; reflexivity | reflexivity
    | reflexivity | lia |].
  by split_and!.
Defined.


Lemma rename_keeps_session_witness :
  (handleSaveTitle trimAscii true renaming).1
    = Some (1%Z, titleUpdate "Algebra") /\
  rerender (retitled noteA "Algebra") dirty
    = Rendered (set_note (retitled noteA "Algebra") dirty).
Proof.
  destruct (rename_keeps_session (H:=engine) trimAscii renaming noteA dirty)
    as (Hreq & _ & Hsame & _);
    [reflexivity | reflexivity | vm_compute; congruence
    | vm_compute; congruence |].
  split; [exact (f_equal fst Hreq) | exact Hsame].
Defined.

Lemma failed_save_after_switch_witness :
  observe statusLine (run saving [Rerender noteB; Settle 0 false])
    = Some [ReadyText] /\
  observe calls
    (run saving [Rerender noteB; Settle 0 false; Elapse 60000])
    = Some [mkCall 1 (contentUpdate "[1]")].
Proof.
  destruct (failed_save_after_switch 0 noteB saving (commit noteB saving))
    as (_ & Hline & _ & _ & Hidle);
    [reflexivity | vm_compute; congruence | reflexivity
    | eexists; reflexivity |].
  split; [exact (f_equal Some Hline)|].
  refine (Hidle [Elapse 60000] _). repeat constructor.
Defined.

End MoreScenarios.

